(** * MCP client dashboard components: a shallow embedding

    The development follows the three React components of
    [src/components/mcp-client]: [ServerManagement.tsx],
    [ServerFormModal.tsx] and [ToolsExplorer.tsx].

    Part I holds the model: the JavaScript platform the components run on
    (values, strings, JSON, exceptions, promises), the validation library's
    combinators the form schema is built from, and one module per component.
    Part II holds the properties. *)

From Stdlib Require Import String Ascii List Bool Arith ZArith Lia.
From ExtLib Require Import Structures.Monad Structures.MonadExc.
Import ListNotations.
Import MonadNotation.
Set Warnings "-register-all".
Local Open Scope monad_scope.
Local Open Scope list_scope.
Local Open Scope string_scope.

(* ===================================================================== *)
(** * Part I. The model                                                   *)
(* ===================================================================== *)

(** ** The JavaScript platform *)

Module JS.

(** Run-time values.  A number is written [mant * 10^expo] and stands for
    the double nearest to that decimal ([nearest_double]), which is how a
    number is read from a text; the sign of a zero is not kept.  An object
    is the list of its own properties in the order they were created
    ([own_order] gives the order they are enumerated in); [VError] is an
    instance of [Error] with its [message].  Strings are byte strings: a
    code unit above 127 is held as the bytes of its encoding
    ([unit_bytes]). *)
Inductive value : Type :=
| VUndefined
| VNull
| VBool (b : bool)
| VNum (mant expo : Z)
| VStr (s : string)
| VArr (items : list value)
| VObj (props : list (string * value))
| VError (message : string).

(** [typeof v] *)
Definition typeof (v : value) : string :=
  match v with
  | VUndefined => "undefined"
  | VNull => "object"
  | VBool _ => "boolean"
  | VNum _ _ => "number"
  | VStr _ => "string"
  | VArr _ => "object"
  | VObj _ => "object"
  | VError _ => "object"
  end.

(** *** Numbers

    A double is zero, infinite, or [f * 2^q] with [2^52 <= f < 2^53] and
    [-1074 <= q <= 971], or with [0 < f < 2^52] and [q = -1074]; the sign
    is kept apart. *)
Inductive double : Type :=
| DZero
| DInfinity
| DFinite (f q : Z).

Definition double_eqb (x y : double) : bool :=
  match x, y with
  | DZero, DZero => true
  | DInfinity, DInfinity => true
  | DFinite f q, DFinite f' q' => ((f =? f') && (q =? q'))%Z
  | _, _ => false
  end.

(** [num / (den * 2^q)] as a fraction of integers. *)
Definition scale (num den q : Z) : Z * Z :=
  if (0 <=? q)%Z then (num, den * 2 ^ q)%Z else (num * 2 ^ (- q), den)%Z.

(** The double nearest to [a * 10^e] for [a > 0], ties to the even
    significand.  Beyond [10^400] and below [10^-400] the answer is known
    without the division. *)
Definition nearest_double (a e : Z) : double :=
  if (a <=? 0)%Z then DZero
  else if (400 <? e)%Z then DInfinity
  else if (e + Z.log2 a + 1 <? -400)%Z then DZero
  else
    let num := if (0 <=? e)%Z then (a * 10 ^ e)%Z else a in
    let den := if (0 <=? e)%Z then 1%Z else (10 ^ (- e))%Z in
    let b := (Z.log2 num - Z.log2 den)%Z in
    let lg := let '(n2, d2) := scale num den b in
              if (d2 <=? n2)%Z then b else (b - 1)%Z in
    let q := Z.max (lg - 52) (-1074) in
    let '(n2, d2) := scale num den q in
    let f0 := (n2 / d2)%Z in
    let r := (n2 mod d2)%Z in
    let f := if ((d2 <? 2 * r)%Z || ((d2 =? 2 * r)%Z && Z.odd f0))%bool
             then (f0 + 1)%Z else f0 in
    if (f =? 0)%Z then DZero
    else
      let '(f', q') := if (f =? 2 ^ 53)%Z then ((2 ^ 52)%Z, (q + 1)%Z)
                       else (f, q) in
      if (971 <? q')%Z then DInfinity else DFinite f' q'.

(** The double a number stands for, without its sign. *)
Definition magnitude (mant expo : Z) : double :=
  nearest_double (Z.abs mant) expo.

(** Truthiness, as [if (v)], [v && ...], [v || ...] and [v ? .. : ..] test it. *)
Definition truthy (v : value) : bool :=
  match v with
  | VUndefined | VNull => false
  | VBool b => b
  | VNum m e => negb (double_eqb (magnitude m e) DZero)
  | VStr s => negb (String.eqb s EmptyString)
  | VArr _ | VObj _ | VError _ => true
  end.

(** [Array.isArray(v)] *)
Definition Array_isArray (v : value) : bool :=
  match v with VArr _ => true | _ => false end.

(** [v instanceof Error] *)
Definition instanceof_Error (v : value) : bool :=
  match v with VError _ => true | _ => false end.

Fixpoint lookup (k : string) (props : list (string * value)) : option value :=
  match props with
  | [] => None
  | (k', v) :: rest => if String.eqb k k' then Some v else lookup k rest
  end.

(** ['k' in v] for an object [v]. *)
Definition has_property (k : string) (v : value) : bool :=
  match v with
  | VObj props => match lookup k props with Some _ => true | None => false end
  | VError _ => String.eqb k "message"
  | _ => false
  end.

(** *** Strings *)

Definition is_lower_ascii (c : ascii) : bool :=
  let n := nat_of_ascii c in (Nat.leb 97 n && Nat.leb n 122)%bool.

Definition is_upper_ascii (c : ascii) : bool :=
  let n := nat_of_ascii c in (Nat.leb 65 n && Nat.leb n 90)%bool.

Definition upper_ascii (c : ascii) : ascii :=
  if is_lower_ascii c then ascii_of_nat (nat_of_ascii c - 32) else c.

Definition lower_ascii (c : ascii) : ascii :=
  if is_upper_ascii c then ascii_of_nat (nat_of_ascii c + 32) else c.

(** The bytes a code unit is held as. *)
Definition unit_bytes (u : N) : list ascii :=
  if (u <? 128)%N then [ascii_of_N u]
  else if (u <? 2048)%N then
    [ascii_of_N (192 + N.shiftr u 6); ascii_of_N (128 + N.land u 63)]
  else
    [ascii_of_N (224 + N.shiftr u 12);
     ascii_of_N (128 + N.land (N.shiftr u 6) 63);
     ascii_of_N (128 + N.land u 63)].

(** *** Case conversion

    [toLowerCase] and [toUpperCase] follow the default case conversion of
    Unicode, which is what [String.prototype.toLowerCase] and
    [String.prototype.toUpperCase] do: the text is read as code points, each
    code point is replaced by its mapping (one code point or, for a few,
    several), and a capital sigma at the end of a word becomes a final
    sigma.  The tables below are the mappings and the properties of
    Unicode 14.

    A text is held as bytes: a code unit below 128 is one byte, any other
    code unit is two or three bytes ([unit_bytes]), and a code point above
    the basic plane is its pair of surrogates.  A byte that is no part of
    such a sequence is kept as it is. *)

(** The ranges [(first, last, step, image of first)] of the code points
    that have a lower-case mapping of one code point. *)
Definition lower_ranges : list (N * N * N * N) :=
  [
   (65, 90, 1, 97); (192, 214, 1, 224); (216, 222, 1, 248);
   (256, 302, 2, 257); (306, 310, 2, 307); (313, 327, 2, 314);
   (330, 374, 2, 331); (376, 376, 1, 255); (377, 381, 2, 378);
   (385, 385, 1, 595); (386, 388, 2, 387); (390, 390, 1, 596);
   (391, 391, 1, 392); (393, 394, 1, 598); (395, 395, 1, 396);
   (398, 398, 1, 477); (399, 399, 1, 601); (400, 400, 1, 603);
   (401, 401, 1, 402); (403, 403, 1, 608); (404, 404, 1, 611);
   (406, 406, 1, 617); (407, 407, 1, 616); (408, 408, 1, 409);
   (412, 412, 1, 623); (413, 413, 1, 626); (415, 415, 1, 629);
   (416, 420, 2, 417); (422, 422, 1, 640); (423, 423, 1, 424);
   (425, 425, 1, 643); (428, 428, 1, 429); (430, 430, 1, 648);
   (431, 431, 1, 432); (433, 434, 1, 650); (435, 437, 2, 436);
   (439, 439, 1, 658); (440, 440, 1, 441); (444, 444, 1, 445);
   (452, 452, 1, 454); (453, 453, 1, 454); (455, 455, 1, 457);
   (456, 456, 1, 457); (458, 458, 1, 460); (459, 475, 2, 460);
   (478, 494, 2, 479); (497, 497, 1, 499); (498, 500, 2, 499);
   (502, 502, 1, 405); (503, 503, 1, 447); (504, 542, 2, 505);
   (544, 544, 1, 414); (546, 562, 2, 547); (570, 570, 1, 11365);
   (571, 571, 1, 572); (573, 573, 1, 410); (574, 574, 1, 11366);
   (577, 577, 1, 578); (579, 579, 1, 384); (580, 580, 1, 649);
   (581, 581, 1, 652); (582, 590, 2, 583); (880, 882, 2, 881);
   (886, 886, 1, 887); (895, 895, 1, 1011); (902, 902, 1, 940);
   (904, 906, 1, 941); (908, 908, 1, 972); (910, 911, 1, 973);
   (913, 929, 1, 945); (931, 939, 1, 963); (975, 975, 1, 983);
   (984, 1006, 2, 985); (1012, 1012, 1, 952); (1015, 1015, 1, 1016);
   (1017, 1017, 1, 1010); (1018, 1018, 1, 1019); (1021, 1023, 1, 891);
   (1024, 1039, 1, 1104); (1040, 1071, 1, 1072); (1120, 1152, 2, 1121);
   (1162, 1214, 2, 1163); (1216, 1216, 1, 1231); (1217, 1229, 2, 1218);
   (1232, 1326, 2, 1233); (1329, 1366, 1, 1377); (4256, 4293, 1, 11520);
   (4295, 4295, 1, 11559); (4301, 4301, 1, 11565); (5024, 5103, 1, 43888);
   (5104, 5109, 1, 5112); (7312, 7354, 1, 4304); (7357, 7359, 1, 4349);
   (7680, 7828, 2, 7681); (7838, 7838, 1, 223); (7840, 7934, 2, 7841);
   (7944, 7951, 1, 7936); (7960, 7965, 1, 7952); (7976, 7983, 1, 7968);
   (7992, 7999, 1, 7984); (8008, 8013, 1, 8000); (8025, 8031, 2, 8017);
   (8040, 8047, 1, 8032); (8072, 8079, 1, 8064); (8088, 8095, 1, 8080);
   (8104, 8111, 1, 8096); (8120, 8121, 1, 8112); (8122, 8123, 1, 8048);
   (8124, 8124, 1, 8115); (8136, 8139, 1, 8050); (8140, 8140, 1, 8131);
   (8152, 8153, 1, 8144); (8154, 8155, 1, 8054); (8168, 8169, 1, 8160);
   (8170, 8171, 1, 8058); (8172, 8172, 1, 8165); (8184, 8185, 1, 8056);
   (8186, 8187, 1, 8060); (8188, 8188, 1, 8179); (8486, 8486, 1, 969);
   (8490, 8490, 1, 107); (8491, 8491, 1, 229); (8498, 8498, 1, 8526);
   (8544, 8559, 1, 8560); (8579, 8579, 1, 8580); (9398, 9423, 1, 9424);
   (11264, 11311, 1, 11312); (11360, 11360, 1, 11361);
   (11362, 11362, 1, 619); (11363, 11363, 1, 7549); (11364, 11364, 1, 637);
   (11367, 11371, 2, 11368); (11373, 11373, 1, 593); (11374, 11374, 1, 625);
   (11375, 11375, 1, 592); (11376, 11376, 1, 594); (11378, 11378, 1, 11379);
   (11381, 11381, 1, 11382); (11390, 11391, 1, 575);
   (11392, 11490, 2, 11393); (11499, 11501, 2, 11500);
   (11506, 11506, 1, 11507); (42560, 42604, 2, 42561);
   (42624, 42650, 2, 42625); (42786, 42798, 2, 42787);
   (42802, 42862, 2, 42803); (42873, 42875, 2, 42874);
   (42877, 42877, 1, 7545); (42878, 42886, 2, 42879);
   (42891, 42891, 1, 42892); (42893, 42893, 1, 613);
   (42896, 42898, 2, 42897); (42902, 42920, 2, 42903);
   (42922, 42922, 1, 614); (42923, 42923, 1, 604); (42924, 42924, 1, 609);
   (42925, 42925, 1, 620); (42926, 42926, 1, 618); (42928, 42928, 1, 670);
   (42929, 42929, 1, 647); (42930, 42930, 1, 669); (42931, 42931, 1, 43859);
   (42932, 42946, 2, 42933); (42948, 42948, 1, 42900);
   (42949, 42949, 1, 642); (42950, 42950, 1, 7566); (42951, 42953, 2, 42952);
   (42960, 42960, 1, 42961); (42966, 42968, 2, 42967);
   (42997, 42997, 1, 42998); (65313, 65338, 1, 65345);
   (66560, 66599, 1, 66600); (66736, 66771, 1, 66776);
   (66928, 66938, 1, 66967); (66940, 66954, 1, 66979);
   (66956, 66962, 1, 66995); (66964, 66965, 1, 67003);
   (68736, 68786, 1, 68800); (71840, 71871, 1, 71872);
   (93760, 93791, 1, 93792); (125184, 125217, 1, 125218)
  ]%N.

(** The code points whose lower-case mapping is several code points. *)
Definition lower_special : list (N * list N) :=
  [
   (304, [105; 775])
  ]%N.

(** The same for the upper-case mapping. *)
Definition upper_ranges : list (N * N * N * N) :=
  [
   (97, 122, 1, 65); (181, 181, 1, 924); (224, 246, 1, 192);
   (248, 254, 1, 216); (255, 255, 1, 376); (257, 303, 2, 256);
   (305, 305, 1, 73); (307, 311, 2, 306); (314, 328, 2, 313);
   (331, 375, 2, 330); (378, 382, 2, 377); (383, 383, 1, 83);
   (384, 384, 1, 579); (387, 389, 2, 386); (392, 392, 1, 391);
   (396, 396, 1, 395); (402, 402, 1, 401); (405, 405, 1, 502);
   (409, 409, 1, 408); (410, 410, 1, 573); (414, 414, 1, 544);
   (417, 421, 2, 416); (424, 424, 1, 423); (429, 429, 1, 428);
   (432, 432, 1, 431); (436, 438, 2, 435); (441, 441, 1, 440);
   (445, 445, 1, 444); (447, 447, 1, 503); (453, 453, 1, 452);
   (454, 454, 1, 452); (456, 456, 1, 455); (457, 457, 1, 455);
   (459, 459, 1, 458); (460, 460, 1, 458); (462, 476, 2, 461);
   (477, 477, 1, 398); (479, 495, 2, 478); (498, 498, 1, 497);
   (499, 499, 1, 497); (501, 501, 1, 500); (505, 543, 2, 504);
   (547, 563, 2, 546); (572, 572, 1, 571); (575, 576, 1, 11390);
   (578, 578, 1, 577); (583, 591, 2, 582); (592, 592, 1, 11375);
   (593, 593, 1, 11373); (594, 594, 1, 11376); (595, 595, 1, 385);
   (596, 596, 1, 390); (598, 599, 1, 393); (601, 601, 1, 399);
   (603, 603, 1, 400); (604, 604, 1, 42923); (608, 608, 1, 403);
   (609, 609, 1, 42924); (611, 611, 1, 404); (613, 613, 1, 42893);
   (614, 614, 1, 42922); (616, 616, 1, 407); (617, 617, 1, 406);
   (618, 618, 1, 42926); (619, 619, 1, 11362); (620, 620, 1, 42925);
   (623, 623, 1, 412); (625, 625, 1, 11374); (626, 626, 1, 413);
   (629, 629, 1, 415); (637, 637, 1, 11364); (640, 640, 1, 422);
   (642, 642, 1, 42949); (643, 643, 1, 425); (647, 647, 1, 42929);
   (648, 648, 1, 430); (649, 649, 1, 580); (650, 651, 1, 433);
   (652, 652, 1, 581); (658, 658, 1, 439); (669, 669, 1, 42930);
   (670, 670, 1, 42928); (837, 837, 1, 921); (881, 883, 2, 880);
   (887, 887, 1, 886); (891, 893, 1, 1021); (940, 940, 1, 902);
   (941, 943, 1, 904); (945, 961, 1, 913); (962, 962, 1, 931);
   (963, 971, 1, 931); (972, 972, 1, 908); (973, 974, 1, 910);
   (976, 976, 1, 914); (977, 977, 1, 920); (981, 981, 1, 934);
   (982, 982, 1, 928); (983, 983, 1, 975); (985, 1007, 2, 984);
   (1008, 1008, 1, 922); (1009, 1009, 1, 929); (1010, 1010, 1, 1017);
   (1011, 1011, 1, 895); (1013, 1013, 1, 917); (1016, 1016, 1, 1015);
   (1019, 1019, 1, 1018); (1072, 1103, 1, 1040); (1104, 1119, 1, 1024);
   (1121, 1153, 2, 1120); (1163, 1215, 2, 1162); (1218, 1230, 2, 1217);
   (1231, 1231, 1, 1216); (1233, 1327, 2, 1232); (1377, 1414, 1, 1329);
   (4304, 4346, 1, 7312); (4349, 4351, 1, 7357); (5112, 5117, 1, 5104);
   (7296, 7296, 1, 1042); (7297, 7297, 1, 1044); (7298, 7298, 1, 1054);
   (7299, 7300, 1, 1057); (7301, 7301, 1, 1058); (7302, 7302, 1, 1066);
   (7303, 7303, 1, 1122); (7304, 7304, 1, 42570); (7545, 7545, 1, 42877);
   (7549, 7549, 1, 11363); (7566, 7566, 1, 42950); (7681, 7829, 2, 7680);
   (7835, 7835, 1, 7776); (7841, 7935, 2, 7840); (7936, 7943, 1, 7944);
   (7952, 7957, 1, 7960); (7968, 7975, 1, 7976); (7984, 7991, 1, 7992);
   (8000, 8005, 1, 8008); (8017, 8023, 2, 8025); (8032, 8039, 1, 8040);
   (8048, 8049, 1, 8122); (8050, 8053, 1, 8136); (8054, 8055, 1, 8154);
   (8056, 8057, 1, 8184); (8058, 8059, 1, 8170); (8060, 8061, 1, 8186);
   (8112, 8113, 1, 8120); (8126, 8126, 1, 921); (8144, 8145, 1, 8152);
   (8160, 8161, 1, 8168); (8165, 8165, 1, 8172); (8526, 8526, 1, 8498);
   (8560, 8575, 1, 8544); (8580, 8580, 1, 8579); (9424, 9449, 1, 9398);
   (11312, 11359, 1, 11264); (11361, 11361, 1, 11360);
   (11365, 11365, 1, 570); (11366, 11366, 1, 574); (11368, 11372, 2, 11367);
   (11379, 11379, 1, 11378); (11382, 11382, 1, 11381);
   (11393, 11491, 2, 11392); (11500, 11502, 2, 11499);
   (11507, 11507, 1, 11506); (11520, 11557, 1, 4256);
   (11559, 11559, 1, 4295); (11565, 11565, 1, 4301);
   (42561, 42605, 2, 42560); (42625, 42651, 2, 42624);
   (42787, 42799, 2, 42786); (42803, 42863, 2, 42802);
   (42874, 42876, 2, 42873); (42879, 42887, 2, 42878);
   (42892, 42892, 1, 42891); (42897, 42899, 2, 42896);
   (42900, 42900, 1, 42948); (42903, 42921, 2, 42902);
   (42933, 42947, 2, 42932); (42952, 42954, 2, 42951);
   (42961, 42961, 1, 42960); (42967, 42969, 2, 42966);
   (42998, 42998, 1, 42997); (43859, 43859, 1, 42931);
   (43888, 43967, 1, 5024); (65345, 65370, 1, 65313);
   (66600, 66639, 1, 66560); (66776, 66811, 1, 66736);
   (66967, 66977, 1, 66928); (66979, 66993, 1, 66940);
   (66995, 67001, 1, 66956); (67003, 67004, 1, 66964);
   (68800, 68850, 1, 68736); (71872, 71903, 1, 71840);
   (93792, 93823, 1, 93760); (125218, 125251, 1, 125184)
  ]%N.

Definition upper_special : list (N * list N) :=
  [
   (223, [83; 83]); (329, [700; 78]); (496, [74; 780]);
   (912, [921; 776; 769]); (944, [933; 776; 769]); (1415, [1333; 1362]);
   (7830, [72; 817]); (7831, [84; 776]); (7832, [87; 778]);
   (7833, [89; 778]); (7834, [65; 702]); (8016, [933; 787]);
   (8018, [933; 787; 768]); (8020, [933; 787; 769]); (8022, [933; 787; 834]);
   (8064, [7944; 921]); (8065, [7945; 921]); (8066, [7946; 921]);
   (8067, [7947; 921]); (8068, [7948; 921]); (8069, [7949; 921]);
   (8070, [7950; 921]); (8071, [7951; 921]); (8072, [7944; 921]);
   (8073, [7945; 921]); (8074, [7946; 921]); (8075, [7947; 921]);
   (8076, [7948; 921]); (8077, [7949; 921]); (8078, [7950; 921]);
   (8079, [7951; 921]); (8080, [7976; 921]); (8081, [7977; 921]);
   (8082, [7978; 921]); (8083, [7979; 921]); (8084, [7980; 921]);
   (8085, [7981; 921]); (8086, [7982; 921]); (8087, [7983; 921]);
   (8088, [7976; 921]); (8089, [7977; 921]); (8090, [7978; 921]);
   (8091, [7979; 921]); (8092, [7980; 921]); (8093, [7981; 921]);
   (8094, [7982; 921]); (8095, [7983; 921]); (8096, [8040; 921]);
   (8097, [8041; 921]); (8098, [8042; 921]); (8099, [8043; 921]);
   (8100, [8044; 921]); (8101, [8045; 921]); (8102, [8046; 921]);
   (8103, [8047; 921]); (8104, [8040; 921]); (8105, [8041; 921]);
   (8106, [8042; 921]); (8107, [8043; 921]); (8108, [8044; 921]);
   (8109, [8045; 921]); (8110, [8046; 921]); (8111, [8047; 921]);
   (8114, [8122; 921]); (8115, [913; 921]); (8116, [902; 921]);
   (8118, [913; 834]); (8119, [913; 834; 921]); (8124, [913; 921]);
   (8130, [8138; 921]); (8131, [919; 921]); (8132, [905; 921]);
   (8134, [919; 834]); (8135, [919; 834; 921]); (8140, [919; 921]);
   (8146, [921; 776; 768]); (8147, [921; 776; 769]); (8150, [921; 834]);
   (8151, [921; 776; 834]); (8162, [933; 776; 768]); (8163, [933; 776; 769]);
   (8164, [929; 787]); (8166, [933; 834]); (8167, [933; 776; 834]);
   (8178, [8186; 921]); (8179, [937; 921]); (8180, [911; 921]);
   (8182, [937; 834]); (8183, [937; 834; 921]); (8188, [937; 921]);
   (64256, [70; 70]); (64257, [70; 73]); (64258, [70; 76]);
   (64259, [70; 70; 73]); (64260, [70; 70; 76]); (64261, [83; 84]);
   (64262, [83; 84]); (64275, [1348; 1350]); (64276, [1348; 1333]);
   (64277, [1348; 1339]); (64278, [1358; 1350]); (64279, [1348; 1341])
  ]%N.

(** The ranges of the code points that are cased and not case-ignorable. *)
Definition cased_ranges : list (N * N) :=
  [
   (65, 90); (97, 122); (170, 170); (181, 181); (186, 186); (192, 214);
   (216, 246); (248, 442); (444, 447); (452, 659); (661, 687); (880, 883);
   (886, 887); (891, 893); (895, 895); (902, 902); (904, 906); (908, 908);
   (910, 929); (931, 1013); (1015, 1153); (1162, 1327); (1329, 1366);
   (1376, 1416); (4256, 4293); (4295, 4295); (4301, 4301); (4304, 4346);
   (4349, 4351); (5024, 5109); (5112, 5117); (7296, 7304); (7312, 7354);
   (7357, 7359); (7424, 7467); (7531, 7543); (7545, 7578); (7680, 7957);
   (7960, 7965); (7968, 8005); (8008, 8013); (8016, 8023); (8025, 8025);
   (8027, 8027); (8029, 8029); (8031, 8061); (8064, 8116); (8118, 8124);
   (8126, 8126); (8130, 8132); (8134, 8140); (8144, 8147); (8150, 8155);
   (8160, 8172); (8178, 8180); (8182, 8188); (8450, 8450); (8455, 8455);
   (8458, 8467); (8469, 8469); (8473, 8477); (8484, 8484); (8486, 8486);
   (8488, 8488); (8490, 8493); (8495, 8500); (8505, 8505); (8508, 8511);
   (8517, 8521); (8526, 8526); (8544, 8575); (8579, 8580); (9398, 9449);
   (11264, 11387); (11390, 11492); (11499, 11502); (11506, 11507);
   (11520, 11557); (11559, 11559); (11565, 11565); (42560, 42605);
   (42624, 42651); (42786, 42863); (42865, 42887); (42891, 42894);
   (42896, 42954); (42960, 42961); (42963, 42963); (42965, 42969);
   (42997, 42998); (43002, 43002); (43824, 43866); (43872, 43880);
   (43888, 43967); (64256, 64262); (64275, 64279); (65313, 65338);
   (65345, 65370); (66560, 66639); (66736, 66771); (66776, 66811);
   (66928, 66938); (66940, 66954); (66956, 66962); (66964, 66965);
   (66967, 66977); (66979, 66993); (66995, 67001); (67003, 67004);
   (68736, 68786); (68800, 68850); (71840, 71903); (93760, 93823);
   (119808, 119892); (119894, 119964); (119966, 119967); (119970, 119970);
   (119973, 119974); (119977, 119980); (119982, 119993); (119995, 119995);
   (119997, 120003); (120005, 120069); (120071, 120074); (120077, 120084);
   (120086, 120092); (120094, 120121); (120123, 120126); (120128, 120132);
   (120134, 120134); (120138, 120144); (120146, 120485); (120488, 120512);
   (120514, 120538); (120540, 120570); (120572, 120596); (120598, 120628);
   (120630, 120654); (120656, 120686); (120688, 120712); (120714, 120744);
   (120746, 120770); (120772, 120779); (122624, 122633); (122635, 122654);
   (125184, 125251); (127280, 127305); (127312, 127337); (127344, 127369)
  ]%N.

(** The ranges of the case-ignorable code points. *)
Definition case_ignorable_ranges : list (N * N) :=
  [
   (39, 39); (46, 46); (58, 58); (94, 94); (96, 96); (168, 168); (173, 173);
   (175, 175); (180, 180); (183, 184); (688, 879); (884, 885); (890, 890);
   (900, 901); (903, 903); (1155, 1161); (1369, 1369); (1375, 1375);
   (1425, 1469); (1471, 1471); (1473, 1474); (1476, 1477); (1479, 1479);
   (1524, 1524); (1536, 1541); (1552, 1562); (1564, 1564); (1600, 1600);
   (1611, 1631); (1648, 1648); (1750, 1757); (1759, 1768); (1770, 1773);
   (1807, 1807); (1809, 1809); (1840, 1866); (1958, 1968); (2027, 2037);
   (2042, 2042); (2045, 2045); (2070, 2093); (2137, 2139); (2184, 2184);
   (2192, 2193); (2200, 2207); (2249, 2306); (2362, 2362); (2364, 2364);
   (2369, 2376); (2381, 2381); (2385, 2391); (2402, 2403); (2417, 2417);
   (2433, 2433); (2492, 2492); (2497, 2500); (2509, 2509); (2530, 2531);
   (2558, 2558); (2561, 2562); (2620, 2620); (2625, 2626); (2631, 2632);
   (2635, 2637); (2641, 2641); (2672, 2673); (2677, 2677); (2689, 2690);
   (2748, 2748); (2753, 2757); (2759, 2760); (2765, 2765); (2786, 2787);
   (2810, 2815); (2817, 2817); (2876, 2876); (2879, 2879); (2881, 2884);
   (2893, 2893); (2901, 2902); (2914, 2915); (2946, 2946); (3008, 3008);
   (3021, 3021); (3072, 3072); (3076, 3076); (3132, 3132); (3134, 3136);
   (3142, 3144); (3146, 3149); (3157, 3158); (3170, 3171); (3201, 3201);
   (3260, 3260); (3263, 3263); (3270, 3270); (3276, 3277); (3298, 3299);
   (3328, 3329); (3387, 3388); (3393, 3396); (3405, 3405); (3426, 3427);
   (3457, 3457); (3530, 3530); (3538, 3540); (3542, 3542); (3633, 3633);
   (3636, 3642); (3654, 3662); (3761, 3761); (3764, 3772); (3782, 3782);
   (3784, 3789); (3864, 3865); (3893, 3893); (3895, 3895); (3897, 3897);
   (3953, 3966); (3968, 3972); (3974, 3975); (3981, 3991); (3993, 4028);
   (4038, 4038); (4141, 4144); (4146, 4151); (4153, 4154); (4157, 4158);
   (4184, 4185); (4190, 4192); (4209, 4212); (4226, 4226); (4229, 4230);
   (4237, 4237); (4253, 4253); (4348, 4348); (4957, 4959); (5906, 5908);
   (5938, 5939); (5970, 5971); (6002, 6003); (6068, 6069); (6071, 6077);
   (6086, 6086); (6089, 6099); (6103, 6103); (6109, 6109); (6155, 6159);
   (6211, 6211); (6277, 6278); (6313, 6313); (6432, 6434); (6439, 6440);
   (6450, 6450); (6457, 6459); (6679, 6680); (6683, 6683); (6742, 6742);
   (6744, 6750); (6752, 6752); (6754, 6754); (6757, 6764); (6771, 6780);
   (6783, 6783); (6823, 6823); (6832, 6862); (6912, 6915); (6964, 6964);
   (6966, 6970); (6972, 6972); (6978, 6978); (7019, 7027); (7040, 7041);
   (7074, 7077); (7080, 7081); (7083, 7085); (7142, 7142); (7144, 7145);
   (7149, 7149); (7151, 7153); (7212, 7219); (7222, 7223); (7288, 7293);
   (7376, 7378); (7380, 7392); (7394, 7400); (7405, 7405); (7412, 7412);
   (7416, 7417); (7468, 7530); (7544, 7544); (7579, 7679); (8125, 8125);
   (8127, 8129); (8141, 8143); (8157, 8159); (8173, 8175); (8189, 8190);
   (8203, 8207); (8216, 8217); (8228, 8228); (8231, 8231); (8234, 8238);
   (8288, 8292); (8294, 8303); (8305, 8305); (8319, 8319); (8336, 8348);
   (8400, 8432); (11388, 11389); (11503, 11505); (11631, 11631);
   (11647, 11647); (11744, 11775); (11823, 11823); (12293, 12293);
   (12330, 12333); (12337, 12341); (12347, 12347); (12441, 12446);
   (12540, 12542); (40981, 40981); (42232, 42237); (42508, 42508);
   (42607, 42610); (42612, 42621); (42623, 42623); (42652, 42655);
   (42736, 42737); (42752, 42785); (42864, 42864); (42888, 42890);
   (42994, 42996); (43000, 43001); (43010, 43010); (43014, 43014);
   (43019, 43019); (43045, 43046); (43052, 43052); (43204, 43205);
   (43232, 43249); (43263, 43263); (43302, 43309); (43335, 43345);
   (43392, 43394); (43443, 43443); (43446, 43449); (43452, 43453);
   (43471, 43471); (43493, 43494); (43561, 43566); (43569, 43570);
   (43573, 43574); (43587, 43587); (43596, 43596); (43632, 43632);
   (43644, 43644); (43696, 43696); (43698, 43700); (43703, 43704);
   (43710, 43711); (43713, 43713); (43741, 43741); (43756, 43757);
   (43763, 43764); (43766, 43766); (43867, 43871); (43881, 43883);
   (44005, 44005); (44008, 44008); (44013, 44013); (64286, 64286);
   (64434, 64450); (65024, 65039); (65043, 65043); (65056, 65071);
   (65106, 65106); (65109, 65109); (65279, 65279); (65287, 65287);
   (65294, 65294); (65306, 65306); (65342, 65342); (65344, 65344);
   (65392, 65392); (65438, 65439); (65507, 65507); (65529, 65531);
   (66045, 66045); (66272, 66272); (66422, 66426); (67456, 67461);
   (67463, 67504); (67506, 67514); (68097, 68099); (68101, 68102);
   (68108, 68111); (68152, 68154); (68159, 68159); (68325, 68326);
   (68900, 68903); (69291, 69292); (69446, 69456); (69506, 69509);
   (69633, 69633); (69688, 69702); (69744, 69744); (69747, 69748);
   (69759, 69761); (69811, 69814); (69817, 69818); (69821, 69821);
   (69826, 69826); (69837, 69837); (69888, 69890); (69927, 69931);
   (69933, 69940); (70003, 70003); (70016, 70017); (70070, 70078);
   (70089, 70092); (70095, 70095); (70191, 70193); (70196, 70196);
   (70198, 70199); (70206, 70206); (70367, 70367); (70371, 70378);
   (70400, 70401); (70459, 70460); (70464, 70464); (70502, 70508);
   (70512, 70516); (70712, 70719); (70722, 70724); (70726, 70726);
   (70750, 70750); (70835, 70840); (70842, 70842); (70847, 70848);
   (70850, 70851); (71090, 71093); (71100, 71101); (71103, 71104);
   (71132, 71133); (71219, 71226); (71229, 71229); (71231, 71232);
   (71339, 71339); (71341, 71341); (71344, 71349); (71351, 71351);
   (71453, 71455); (71458, 71461); (71463, 71467); (71727, 71735);
   (71737, 71738); (71995, 71996); (71998, 71998); (72003, 72003);
   (72148, 72151); (72154, 72155); (72160, 72160); (72193, 72202);
   (72243, 72248); (72251, 72254); (72263, 72263); (72273, 72278);
   (72281, 72283); (72330, 72342); (72344, 72345); (72752, 72758);
   (72760, 72765); (72767, 72767); (72850, 72871); (72874, 72880);
   (72882, 72883); (72885, 72886); (73009, 73014); (73018, 73018);
   (73020, 73021); (73023, 73029); (73031, 73031); (73104, 73105);
   (73109, 73109); (73111, 73111); (73459, 73460); (78896, 78904);
   (92912, 92916); (92976, 92982); (92992, 92995); (94031, 94031);
   (94095, 94111); (94176, 94177); (94179, 94180); (110576, 110579);
   (110581, 110587); (110589, 110590); (113821, 113822); (113824, 113827);
   (118528, 118573); (118576, 118598); (119143, 119145); (119155, 119170);
   (119173, 119179); (119210, 119213); (119362, 119364); (121344, 121398);
   (121403, 121452); (121461, 121461); (121476, 121476); (121499, 121503);
   (121505, 121519); (122880, 122886); (122888, 122904); (122907, 122913);
   (122915, 122916); (122918, 122922); (123184, 123197); (123566, 123566);
   (123628, 123631); (125136, 125142); (125252, 125259); (127995, 127999);
   (917505, 917505); (917536, 917631); (917760, 917999)
  ]%N.

(** The image of [p] in a table of ranges; [p] itself outside them. *)
Fixpoint map_in (ranges : list (N * N * N * N)) (p : N) : N :=
  match ranges with
  | [] => p
  | (first, last, step, image) :: more =>
      if (p <? first)%N then p
      else if ((p <=? last) && ((p - first) mod step =? 0))%N%bool
           then (image + (p - first))%N
      else map_in more p
  end.

Fixpoint special_in (table : list (N * list N)) (p : N) : option (list N) :=
  match table with
  | [] => None
  | (c, image) :: more => if (p =? c)%N then Some image else special_in more p
  end.

Fixpoint in_ranges (ranges : list (N * N)) (p : N) : bool :=
  match ranges with
  | [] => false
  | (first, last) :: more =>
      if (p <? first)%N then false
      else if (p <=? last)%N then true
      else in_ranges more p
  end.

Definition lower_point (p : N) : list N :=
  match special_in lower_special p with
  | Some image => image
  | None => [map_in lower_ranges p]
  end.

Definition upper_point (p : N) : list N :=
  match special_in upper_special p with
  | Some image => image
  | None => [map_in upper_ranges p]
  end.

Definition cased (p : N) : bool := in_ranges cased_ranges p.

Definition case_ignorable (p : N) : bool := in_ranges case_ignorable_ranges p.

(** A byte that is no part of a sequence, as a value above every code
    point. *)
Definition stray (b : N) : N := (1114112 + (b - 128))%N.

(** The bytes of a sequence that is not complete yet. *)
Inductive partial : Type :=
| Whole
| Lead2 (b1 : N)
| Lead3 (b1 : N)
| Mid3 (b1 b2 : N).

Definition strays (st : partial) : list N :=
  match st with
  | Whole => []
  | Lead2 b1 | Lead3 b1 => [stray b1]
  | Mid3 b1 b2 => [stray b1; stray b2]
  end.

(** One more byte: the code units that are complete with it. *)
Definition decode_step (st : partial) (b : N) : partial * list N :=
  if (b <? 128)%N then (Whole, strays st ++ [b])%list
  else if (b <? 192)%N then
    match st with
    | Whole => (Whole, [stray b])
    | Lead2 b1 =>
        let u := ((b1 - 192) * 64 + (b - 128))%N in
        if (u <? 128)%N then (Whole, [stray b1; stray b]) else (Whole, [u])
    | Lead3 b1 => (Mid3 b1 b, [])
    | Mid3 b1 b2 =>
        let u := ((b1 - 224) * 4096 + (b2 - 128) * 64 + (b - 128))%N in
        if (u <? 2048)%N then (Whole, [stray b1; stray b2; stray b])
        else (Whole, [u])
    end
  else if (b <? 224)%N then (Lead2 b, strays st)
  else if (b <? 240)%N then (Lead3 b, strays st)
  else (Whole, strays st ++ [stray b])%list.

(** The code units of a text. *)
Fixpoint decode (st : partial) (s : string) : list N :=
  match s with
  | EmptyString => strays st
  | String c rest =>
      let '(st', units) := decode_step st (N_of_ascii c) in
      (units ++ decode st' rest)%list
  end.

(** [s.length]: the number of code units. *)
Definition string_length (s : string) : nat := List.length (decode Whole s).

Definition is_high_surrogate (u : N) : bool :=
  ((55296 <=? u) && (u <? 56320))%N%bool.

Definition is_low_surrogate (u : N) : bool :=
  ((56320 <=? u) && (u <? 57344))%N%bool.

(** One more code unit, after a high surrogate that waits for its low
    one or after none: the code points that are complete with it. *)
Definition pair_step (high : option N) (u : N) : option N * list N :=
  match high with
  | Some h =>
      if is_low_surrogate u
      then (None, [65536 + (h - 55296) * 1024 + (u - 56320)])%N
      else if is_high_surrogate u then (Some u, [h])
      else (None, [h; u])
  | None =>
      if is_high_surrogate u then (Some u, []) else (None, [u])
  end.

Fixpoint pair_up (high : option N) (units : list N) : list N :=
  match units with
  | [] => match high with Some h => [h] | None => [] end
  | u :: rest =>
      let '(high', points) := pair_step high u in
      (points ++ pair_up high' rest)%list
  end.

(** The code points of a text. *)
Definition code_points (s : string) : list N := pair_up None (decode Whole s).

Definition point_bytes (p : N) : list ascii :=
  if (1114112 <=? p)%N then [ascii_of_N (128 + (p - 1114112) mod 128)]
  else if (p <? 65536)%N then unit_bytes p
  else (unit_bytes (55296 + (p - 65536) / 1024)
        ++ unit_bytes (56320 + (p - 65536) mod 1024))%list.

(** The text of a list of code points. *)
Definition of_code_points (points : list N) : string :=
  string_of_list_ascii (flat_map point_bytes points).

(** Whether a cased letter follows, case-ignorable code points apart. *)
Fixpoint followed_by_cased (points : list N) : bool :=
  match points with
  | [] => false
  | p :: rest => if case_ignorable p then followed_by_cased rest else cased p
  end.

(** The lower case of the code points; [after_cased] says that a cased
    letter precedes, case-ignorable code points apart.  A capital sigma
    (931) after a cased letter and before none is a final sigma (962). *)
Fixpoint lower_points (after_cased : bool) (points : list N) : list N :=
  match points with
  | [] => []
  | p :: rest =>
      ((if ((p =? 931)%N && after_cased && negb (followed_by_cased rest))%bool
        then [962%N] else lower_point p)
       ++ lower_points (if case_ignorable p then after_cased else cased p) rest)%list
  end.

(** [s.toLowerCase()] *)
Definition toLowerCase (s : string) : string :=
  of_code_points (lower_points false (code_points s)).

(** [s.toUpperCase()] *)
Definition toUpperCase (s : string) : string :=
  of_code_points (flat_map upper_point (code_points s)).

(** [s.includes(sub)]: [sub] occurs in [s] at some position. *)
Fixpoint includes (s sub : string) : bool :=
  match s with
  | EmptyString => String.prefix sub EmptyString
  | String _ s' => String.prefix sub s || includes s' sub
  end.

(** *** Exceptions *)

(** The outcome of evaluating an expression or running a block: a value,
    or an exception thrown with a value. *)
Inductive completion (A : Type) : Type :=
| Normal (a : A)
| Throw (exn : value).
Arguments Normal {A} a.
Arguments Throw {A} exn.

#[export] Instance Monad_completion : Monad completion :=
  {| ret := fun _ a => Normal a;
     bind := fun _ _ c k =>
               match c with
               | Normal a => k a
               | Throw e => Throw e
               end |}.

#[export] Instance Exc_completion : MonadExc value completion :=
  {| raise := fun _ e => Throw e;
     catch := fun _ c h =>
                match c with
                | Normal a => Normal a
                | Throw e => h e
                end |}.

Definition TypeError (message : string) : value := VError message.
Definition SyntaxError (message : string) : value := VError message.

(** The member read [v.k].  Reading a member of [undefined] or [null]
    throws; an absent member reads as [undefined].  The built-in members
    of primitives and arrays are not modelled: the components read only
    [name], [description], [schema] and [message]. *)
Definition get_member (v : value) (k : string) : completion value :=
  match v with
  | VUndefined | VNull =>
      raise (TypeError ("Cannot read properties of " ++
                        (match v with VNull => "null" | _ => "undefined" end) ++
                        " (reading '" ++ k ++ "')"))
  | VObj props =>
      ret (match lookup k props with Some x => x | None => VUndefined end)
  | VError m => ret (if String.eqb k "message" then VStr m else VUndefined)
  | _ => ret VUndefined
  end.

(** The method call [v.toLowerCase()]: defined on strings only. *)
Definition call_toLowerCase (v : value) : completion string :=
  match v with
  | VStr s => ret (toLowerCase s)
  | VUndefined =>
      raise (TypeError "Cannot read properties of undefined (reading 'toLowerCase')")
  | VNull =>
      raise (TypeError "Cannot read properties of null (reading 'toLowerCase')")
  | _ => raise (TypeError "toLowerCase is not a function")
  end.

(** [xs.filter(f)] for a callback that may throw: the first exception
    leaves the loop. *)
Fixpoint filterM {A : Type} (f : A -> completion bool) (xs : list A)
  : completion (list A) :=
  match xs with
  | [] => ret []
  | x :: rest =>
      keep <- f x ;;
      kept <- filterM f rest ;;
      ret (if (keep : bool) then x :: kept else kept)
  end.

(** [xs.map(f)] for a callback that may throw. *)
Fixpoint mapM {A B : Type} (f : A -> completion B) (xs : list A)
  : completion (list B) :=
  match xs with
  | [] => ret []
  | x :: rest =>
      y <- f x ;;
      ys <- mapM f rest ;;
      ret (y :: ys)
  end.

(** *** JSON.parse

    The text is read in two passes, each one pass over its input: a
    scanner from characters to tokens and a pushdown recogniser from
    tokens to a value. *)

Inductive token : Type :=
| TLBrace | TRBrace | TLBracket | TRBracket | TColon | TComma
| TString (s : string)
| TNumber (mant expo : Z)
| TTrue | TFalse | TNull.

Definition dquote : ascii := ascii_of_nat 34.
Definition backslash : ascii := ascii_of_nat 92.

Definition is_digit (c : ascii) : bool :=
  let n := nat_of_ascii c in (Nat.leb 48 n && Nat.leb n 57)%bool.

Definition digit_value (c : ascii) : Z := Z.of_nat (nat_of_ascii c - 48).

Definition hex_value (c : ascii) : option N :=
  let n := nat_of_ascii c in
  if (Nat.leb 48 n && Nat.leb n 57)%bool then Some (N.of_nat (n - 48))
  else if (Nat.leb 65 n && Nat.leb n 70)%bool then Some (N.of_nat (n - 55))
  else if (Nat.leb 97 n && Nat.leb n 102)%bool then Some (N.of_nat (n - 87))
  else None.

Definition is_whitespace (c : ascii) : bool :=
  let n := nat_of_ascii c in
  (Nat.eqb n 32 || Nat.eqb n 9 || Nat.eqb n 10 || Nat.eqb n 13)%bool.

(** The characters a literal name or a number is written with. *)
Definition is_word_char (c : ascii) : bool :=
  (is_digit c || is_lower_ascii c || is_upper_ascii c
   || Ascii.eqb c "-" || Ascii.eqb c "+" || Ascii.eqb c ".")%bool.

(** The leading digits of [s]: their value after [acc], how many there
    are, and what follows them. *)
Fixpoint digits (s : string) (acc : Z) (count : nat) : Z * nat * string :=
  match s with
  | String c rest =>
      if is_digit c then digits rest (acc * 10 + digit_value c)%Z (S count)
      else (acc, count, s)
  | EmptyString => (acc, count, s)
  end.

(** A number: an optional minus, an integer part with no leading zero,
    an optional fraction, an optional exponent. *)
Definition read_number (s : string) : option (Z * Z) :=
  let '(neg, s1) :=
    match s with
    | String c r => if Ascii.eqb c "-" then (true, r) else (false, s)
    | EmptyString => (false, s)
    end in
  let sign (m : Z) : Z := if neg then (- m)%Z else m in
  match s1 with
  | EmptyString => None
  | String c0 _ =>
      let '(ip, n, s2) := digits s1 0%Z 0%nat in
      if (Nat.eqb n 0 || (Ascii.eqb c0 "0" && Nat.ltb 1 n))%bool then None
      else
        let frac : option (Z * nat * string) :=
          match s2 with
          | String d r =>
              if Ascii.eqb d "." then
                let '(m, k, s3) := digits r ip 0%nat in
                if Nat.eqb k 0 then None else Some (m, k, s3)
              else Some (ip, 0%nat, s2)
          | EmptyString => Some (ip, 0%nat, s2)
          end in
        match frac with
        | None => None
        | Some (m, k, s3) =>
            match s3 with
            | EmptyString => Some (sign m, (- Z.of_nat k)%Z)
            | String e r =>
                if (Ascii.eqb e "e" || Ascii.eqb e "E")%bool then
                  let '(eneg, r1) :=
                    match r with
                    | String x r' =>
                        if Ascii.eqb x "-" then (true, r')
                        else if Ascii.eqb x "+" then (false, r')
                        else (false, r)
                    | EmptyString => (false, r)
                    end in
                  let '(ev, j, r2) := digits r1 0%Z 0%nat in
                  if (Nat.eqb j 0 || negb (String.eqb r2 EmptyString))%bool then None
                  else Some (sign m, ((if eneg then - ev else ev) - Z.of_nat k)%Z)
                else None
            end
        end
  end.

(** The token a complete word stands for. *)
Definition word_token (w : string) : option token :=
  if String.eqb w "true" then Some TTrue
  else if String.eqb w "false" then Some TFalse
  else if String.eqb w "null" then Some TNull
  else match read_number w with
       | Some (m, e) => Some (TNumber m e)
       | None => None
       end.

Definition string_of_rev (cs : list ascii) : string :=
  string_of_list_ascii (rev cs).

(** What the scanner is in the middle of; characters read so far are kept
    last first. *)
Inductive lex_mode : Type :=
| LIdle
| LWord (w : list ascii)
| LStr (acc : list ascii)
| LEsc (acc : list ascii)
| LUni (acc : list ascii) (code : N) (count : nat).

Definition idle_step (toks : list token) (c : ascii)
  : option (lex_mode * list token) :=
  if is_whitespace c then Some (LIdle, toks)
  else if Ascii.eqb c "{" then Some (LIdle, TLBrace :: toks)
  else if Ascii.eqb c "}" then Some (LIdle, TRBrace :: toks)
  else if Ascii.eqb c "[" then Some (LIdle, TLBracket :: toks)
  else if Ascii.eqb c "]" then Some (LIdle, TRBracket :: toks)
  else if Ascii.eqb c ":" then Some (LIdle, TColon :: toks)
  else if Ascii.eqb c "," then Some (LIdle, TComma :: toks)
  else if Ascii.eqb c dquote then Some (LStr [], toks)
  else if is_word_char c then Some (LWord [c], toks)
  else None.

Definition lex_step (mode : lex_mode) (toks : list token) (c : ascii)
  : option (lex_mode * list token) :=
  match mode with
  | LIdle => idle_step toks c
  | LWord w =>
      if is_word_char c then Some (LWord (c :: w), toks)
      else match word_token (string_of_rev w) with
           | Some t => idle_step (t :: toks) c
           | None => None
           end
  | LStr acc =>
      if Ascii.eqb c dquote then Some (LIdle, TString (string_of_rev acc) :: toks)
      else if Ascii.eqb c backslash then Some (LEsc acc, toks)
      else if Nat.ltb (nat_of_ascii c) 32 then None
      else Some (LStr (c :: acc), toks)
  | LEsc acc =>
      if (Ascii.eqb c dquote || Ascii.eqb c backslash || Ascii.eqb c "/")%bool
      then Some (LStr (c :: acc), toks)
      else if Ascii.eqb c "b" then Some (LStr (ascii_of_nat 8 :: acc), toks)
      else if Ascii.eqb c "f" then Some (LStr (ascii_of_nat 12 :: acc), toks)
      else if Ascii.eqb c "n" then Some (LStr (ascii_of_nat 10 :: acc), toks)
      else if Ascii.eqb c "r" then Some (LStr (ascii_of_nat 13 :: acc), toks)
      else if Ascii.eqb c "t" then Some (LStr (ascii_of_nat 9 :: acc), toks)
      else if Ascii.eqb c "u" then Some (LUni acc 0%N 0%nat, toks)
      else None
  | LUni acc code count =>
      match hex_value c with
      | Some h =>
          let code' := (code * 16 + h)%N in
          if Nat.eqb count 3
          then Some (LStr (rev (unit_bytes code') ++ acc)%list, toks)
          else Some (LUni acc code' (S count), toks)
      | None => None
      end
  end.

Fixpoint lex (mode : lex_mode) (toks : list token) (s : string)
  : option (list token) :=
  match s with
  | String c rest =>
      match lex_step mode toks c with
      | Some (mode', toks') => lex mode' toks' rest
      | None => None
      end
  | EmptyString =>
      match mode with
      | LIdle => Some (rev toks)
      | LWord w =>
          match word_token (string_of_rev w) with
          | Some t => Some (rev (t :: toks))
          | None => None
          end
      | _ => None
      end
  end.

(** [obj[k] = v]: an existing property keeps its place. *)
Fixpoint obj_set (k : string) (v : value) (props : list (string * value))
  : list (string * value) :=
  match props with
  | [] => [(k, v)]
  | (k', v') :: rest =>
      if String.eqb k k' then (k, v) :: rest else (k', v') :: obj_set k v rest
  end.

(** An array or an object that is still open: the items read so far (last
    first), or the properties read so far and the key whose value is
    awaited, if any. *)
Inductive frame : Type :=
| FArr (items : list value)
| FObj (props : list (string * value)) (pending : option string).

(** What the recogniser expects next. *)
Inductive expect : Type :=
| EValue
| EValueOrClose
| EKeyOrClose
| EKey
| EColon
| ECommaOrClose
| EEnd (v : value).

(** A value is complete: it is the whole text, or the next item of the
    array on top, or the value of the pending key of the object on top. *)
Definition complete (v : value) (stack : list frame)
  : option (expect * list frame) :=
  match stack with
  | [] => Some (EEnd v, [])
  | FArr items :: up => Some (ECommaOrClose, FArr (v :: items) :: up)
  | FObj props (Some k) :: up =>
      Some (ECommaOrClose, FObj (obj_set k v props) None :: up)
  | FObj _ None :: _ => None
  end.

Definition begin_value (t : token) (stack : list frame)
  : option (expect * list frame) :=
  match t with
  | TLBracket => Some (EValueOrClose, FArr [] :: stack)
  | TLBrace => Some (EKeyOrClose, FObj [] None :: stack)
  | TString s => complete (VStr s) stack
  | TNumber m e => complete (VNum m e) stack
  | TTrue => complete (VBool true) stack
  | TFalse => complete (VBool false) stack
  | TNull => complete VNull stack
  | _ => None
  end.

Definition close_array (stack : list frame) : option (expect * list frame) :=
  match stack with
  | FArr items :: up => complete (VArr (rev items)) up
  | _ => None
  end.

Definition close_object (stack : list frame) : option (expect * list frame) :=
  match stack with
  | FObj props None :: up => complete (VObj props) up
  | _ => None
  end.

Definition take_key (k : string) (stack : list frame)
  : option (expect * list frame) :=
  match stack with
  | FObj props None :: up => Some (EColon, FObj props (Some k) :: up)
  | _ => None
  end.

Definition parse_step (e : expect) (stack : list frame) (t : token)
  : option (expect * list frame) :=
  match e, t with
  | EValue, _ => begin_value t stack
  | EValueOrClose, TRBracket => close_array stack
  | EValueOrClose, _ => begin_value t stack
  | EKeyOrClose, TRBrace => close_object stack
  | EKeyOrClose, TString k => take_key k stack
  | EKey, TString k => take_key k stack
  | EColon, TColon => Some (EValue, stack)
  | ECommaOrClose, TComma =>
      match stack with
      | FArr _ :: _ => Some (EValue, stack)
      | FObj _ None :: _ => Some (EKey, stack)
      | _ => None
      end
  | ECommaOrClose, TRBracket => close_array stack
  | ECommaOrClose, TRBrace => close_object stack
  | _, _ => None
  end.

Fixpoint parse (e : expect) (stack : list frame) (toks : list token)
  : option value :=
  match toks with
  | t :: rest =>
      match parse_step e stack t with
      | Some (e', stack') => parse e' stack' rest
      | None => None
      end
  | [] =>
      match e, stack with
      | EEnd v, [] => Some v
      | _, _ => None
      end
  end.

(** [JSON.parse(text)]: the value, or a [SyntaxError] thrown. *)
Definition JSON_parse (text : string) : completion value :=
  match lex LIdle [] text with
  | Some toks =>
      match parse EValue [] toks with
      | Some v => ret v
      | None => raise (SyntaxError "Unexpected token in JSON")
      end
  | None => raise (SyntaxError "Unexpected token in JSON")
  end.

(** Text with a double quote on each side. *)
Definition quoted (s : string) : string :=
  String dquote (s ++ String dquote EmptyString).

(** *** JSON.stringify

    A finite number is written with the fewest digits that read back as
    the same double, an infinite one as [null]; a property whose value is
    [undefined] is left out of an object and written [null] in an array;
    the properties of an object come in the order they are enumerated in:
    those whose key is an array index first, by index, then the others in
    the order they were created; an [Error] has no enumerable property of
    its own. *)

Definition digit_char (d : N) : ascii := ascii_of_N (48 + d).

Fixpoint pos_digits (fuel : nat) (n : N) (acc : string) : string :=
  match fuel with
  | O => acc
  | S fuel' =>
      let acc' := String (digit_char (n mod 10)) acc in
      if (n / 10 =? 0)%N then acc' else pos_digits fuel' (n / 10)%N acc'
  end.

(** The decimal digits of [n]. *)
Definition N_digits (n : N) : string :=
  pos_digits (S (N.to_nat (N.log2 n))) n EmptyString.

(** [m] without its trailing zeros, and how many there were. *)
Fixpoint strip_zeros (fuel : nat) (m : N) (dropped : Z) : N * Z :=
  match fuel with
  | O => (m, dropped)
  | S fuel' =>
      if ((m mod 10 =? 0) && negb (m =? 0))%N
      then strip_zeros fuel' (m / 10)%N (dropped + 1)%Z
      else (m, dropped)
  end.

Fixpoint zeros (n : nat) : string :=
  match n with
  | O => EmptyString
  | S n' => String "0" (zeros n')
  end.

(** The decimal [mant * 10^expo] the way [String(x)] lays the digits of a
    number out. *)
Definition decimal_to_string (mant expo : Z) : string :=
  if (mant =? 0)%Z then "0"
  else
    let '(m, z) := strip_zeros (S (N.to_nat (N.log2 (Z.abs_N mant))))
                               (Z.abs_N mant) 0%Z in
    let ds := N_digits m in
    let k := Z.of_nat (String.length ds) in
    let n := (k + expo + z)%Z in
    let sign := if (mant <? 0)%Z then "-" else EmptyString in
    let body :=
      if ((k <=? n) && (n <=? 21))%Z then ds ++ zeros (Z.to_nat (n - k))
      else if ((0 <? n) && (n <=? 21))%Z then
        substring 0 (Z.to_nat n) ds ++ "." ++
        substring (Z.to_nat n) (String.length ds - Z.to_nat n) ds
      else if ((-6 <? n) && (n <=? 0))%Z then
        "0." ++ zeros (Z.to_nat (- n)) ++ ds
      else
        let e := (n - 1)%Z in
        let es := (if (e <? 0)%Z then "-" else "+") ++ N_digits (Z.abs_N e) in
        match ds with
        | String d EmptyString => String d ("e" ++ es)
        | String d more => String d ("." ++ more ++ "e" ++ es)
        | EmptyString => EmptyString
        end in
    sign ++ body.

(** The shortest decimal that reads back as the double [f * 2^q]: the
    candidates with their last digit at [10^j] are the two next to the
    double; [j] goes down until one of them reads back as the double, and
    of two that do, the nearer is taken, the even one when they are
    equally near. *)
Fixpoint shortest_from (fuel : nat) (f q j : Z) : Z * Z :=
  match fuel with
  | O => (0, 0)%Z
  | S fuel' =>
      let '(n0, d0) := scale f 1 (- q) in
      let num := if (0 <=? j)%Z then n0 else (n0 * 10 ^ (- j))%Z in
      let den := if (0 <=? j)%Z then (d0 * 10 ^ j)%Z else d0 in
      let lo := (num / den)%Z in
      let r := (num mod den)%Z in
      let hi := (lo + 1)%Z in
      let ok_lo := double_eqb (nearest_double lo j) (DFinite f q) in
      let ok_hi := double_eqb (nearest_double hi j) (DFinite f q) in
      if (ok_lo && ok_hi)%bool then
        if (2 * r <? den)%Z then (lo, j)
        else if (den <? 2 * r)%Z then (hi, j)
        else if Z.even lo then (lo, j) else (hi, j)
      else if ok_lo then (lo, j)
      else if ok_hi then (hi, j)
      else shortest_from fuel' f q (j - 1)%Z
  end.

(** The search starts above the first digit of the double: [10^j] is more
    than [2^(log2 f + q + 1)] there. *)
Definition shortest (f q : Z) : Z * Z :=
  shortest_from 25 f q (((Z.log2 f + q + 1) * 1233) / 4096 + 2)%Z.

(** [String(x)] for the number [mant * 10^expo]. *)
Definition number_to_string (mant expo : Z) : string :=
  match magnitude mant expo with
  | DZero => "0"
  | DInfinity => if (mant <? 0)%Z then "-Infinity" else "Infinity"
  | DFinite f q =>
      let '(s, j) := shortest f q in
      decimal_to_string (if (mant <? 0)%Z then (- s)%Z else s) j
  end.

Definition hex_char (d : N) : ascii :=
  if (d <? 10)%N then ascii_of_N (48 + d) else ascii_of_N (87 + d).

Definition escape_char (c : ascii) : string :=
  let n := N_of_ascii c in
  if Ascii.eqb c dquote then String backslash (String dquote EmptyString)
  else if Ascii.eqb c backslash then String backslash (String backslash EmptyString)
  else if (n =? 8)%N then String backslash "b"
  else if (n =? 12)%N then String backslash "f"
  else if (n =? 10)%N then String backslash "n"
  else if (n =? 13)%N then String backslash "r"
  else if (n =? 9)%N then String backslash "t"
  else if (n <? 32)%N then
    String backslash ("u00" ++ String (hex_char (n / 16)) (String (hex_char (n mod 16)) EmptyString))
  else String c EmptyString.

Fixpoint escape (s : string) : string :=
  match s with
  | EmptyString => EmptyString
  | String c rest => escape_char c ++ escape rest
  end.

Definition quote_json (s : string) : string := quoted (escape s).

Fixpoint join (sep : string) (parts : list string) : string :=
  match parts with
  | [] => EmptyString
  | [x] => x
  | x :: rest => x ++ sep ++ join sep rest
  end.

Definition is_undefined (v : value) : bool :=
  match v with VUndefined => true | _ => false end.

(** The index a key stands for, when it is an array index: the decimal
    of a number below [2^32 - 1], written without a leading zero. *)
Definition array_index (k : string) : option Z :=
  match k with
  | EmptyString => None
  | String c rest =>
      let '(n, count, after) := digits k 0%Z 0%nat in
      if (String.eqb after EmptyString
          && (Nat.eqb count 1 || negb (Ascii.eqb c "0"))
          && Nat.leb count 10 && (n <? 4294967295)%Z)%bool
      then Some n else None
  end.

(** [entry] put into entries that are in the order of their indices,
    behind the entries of a smaller or the same index. *)
Fixpoint insert_by_index {A : Type} (entry : Z * A) (sorted : list (Z * A))
  : list (Z * A) :=
  match sorted with
  | [] => [entry]
  | first :: rest =>
      if (fst entry <? fst first)%Z then entry :: sorted
      else first :: insert_by_index entry rest
  end.

(** The entries whose key is an array index, by index. *)
Fixpoint indexed_entries {A : Type} (props : list (string * A))
  : list (Z * (string * A)) :=
  match props with
  | [] => []
  | (k, x) :: rest =>
      match array_index k with
      | Some n => insert_by_index (n, (k, x)) (indexed_entries rest)
      | None => indexed_entries rest
      end
  end.

Definition is_named {A : Type} (entry : string * A) : bool :=
  match array_index (fst entry) with Some _ => false | None => true end.

(** The order the own properties of an object are enumerated in. *)
Definition own_order {A : Type} (props : list (string * A)) : list (string * A) :=
  (map snd (indexed_entries props) ++ filter is_named props)%list.

(** [JSON.stringify(v)] for a value other than [undefined]. *)
Fixpoint JSON_stringify (v : value) : string :=
  match v with
  | VUndefined => "null"
  | VNull => "null"
  | VBool true => "true"
  | VBool false => "false"
  | VNum m e =>
      match magnitude m e with
      | DInfinity => "null"
      | _ => number_to_string m e
      end
  | VStr s => quote_json s
  | VArr items => "[" ++ join "," (map JSON_stringify items) ++ "]"
  | VObj props =>
      "{" ++ join ","
        (map (fun member => quote_json (fst member) ++ ":" ++ snd member)
           (own_order
              ((fix members (ps : list (string * value))
                  : list (string * string) :=
                  match ps with
                  | [] => []
                  | (k, x) :: rest =>
                      if is_undefined x then members rest
                      else (k, JSON_stringify x) :: members rest
                  end) props))) ++ "}"
  | VError _ => "{}"
  end.

Definition newline : string := String (ascii_of_nat 10) EmptyString.

(** [JSON.stringify(v, null, gap)] for a value other than [undefined],
    written at the indentation [indent]: the items of an array and the
    properties of an object stand one to a line, one [gap] further in. *)
Fixpoint JSON_stringify_gap (gap indent : string) (v : value) : string :=
  let inner := indent ++ gap in
  let block (opening closing : string) (parts : list string) : string :=
    match parts with
    | [] => opening ++ closing
    | _ :: _ =>
        opening ++ newline ++ inner
        ++ join ("," ++ newline ++ inner) parts
        ++ newline ++ indent ++ closing
    end in
  match v with
  | VArr items => block "[" "]" (map (JSON_stringify_gap gap inner) items)
  | VObj props =>
      block "{" "}"
        (map (fun member => quote_json (fst member) ++ ": " ++ snd member)
           (own_order
              ((fix members (ps : list (string * value))
                  : list (string * string) :=
                  match ps with
                  | [] => []
                  | (k, x) :: rest =>
                      if is_undefined x then members rest
                      else (k, JSON_stringify_gap gap inner x) :: members rest
                  end) props)))
  | _ => JSON_stringify v
  end.

(** *** Effects of an event handler

    The handlers change the component's own state, show notifications and
    write to the console.  A block runs from a world to a completion and a
    world: what was done before an exception stays done. *)

Inductive toast : Type :=
| ToastSuccess (message : string)
| ToastError (message : string).

Record world (S : Type) : Type := mkWorld {
  ui : S;
  toasts : list toast;
  console_errors : list (string * value)
}.
Arguments mkWorld {S} _ _ _.
Arguments ui {S} _.
Arguments toasts {S} _.
Arguments console_errors {S} _.

Definition eff (S A : Type) : Type := world S -> completion A * world S.

#[export] Instance Monad_eff (S : Type) : Monad (eff S) :=
  {| ret := fun _ a w => (Normal a, w);
     bind := fun _ _ c k w =>
               match c w with
               | (Normal a, w') => k a w'
               | (Throw e, w') => (Throw e, w')
               end |}.

(** [try { c } catch (e) { h e }] *)
#[export] Instance Exc_eff (S : Type) : MonadExc value (eff S) :=
  {| raise := fun _ e w => (Throw e, w);
     catch := fun _ c h w =>
                match c w with
                | (Normal a, w') => (Normal a, w')
                | (Throw e, w') => h e w'
                end |}.

(** [try { body } finally { final }] *)
Definition try_finally {S A : Type} (body : eff S A) (final : eff S unit)
  : eff S A :=
  fun w =>
    let '(r, w1) := body w in
    match final w1 with
    | (Normal _, w2) => (r, w2)
    | (Throw e, w2) => (Throw e, w2)
    end.

(** A state setter of [useState]. *)
Definition set_state {S : Type} (f : S -> S) : eff S unit :=
  fun w => (Normal tt, mkWorld (f (ui w)) (toasts w) (console_errors w)).

(** [toast.success(message)] and [toast.error(message)] *)
Definition toast_success {S : Type} (message : string) : eff S unit :=
  fun w => (Normal tt,
            mkWorld (ui w) (toasts w ++ [ToastSuccess message])%list (console_errors w)).

Definition toast_error {S : Type} (message : string) : eff S unit :=
  fun w => (Normal tt,
            mkWorld (ui w) (toasts w ++ [ToastError message])%list (console_errors w)).

(** [console.error(label, error)] *)
Definition console_error {S : Type} (label : string) (error : value) : eff S unit :=
  fun w => (Normal tt,
            mkWorld (ui w) (toasts w) (console_errors w ++ [(label, error)])%list).

(** How the promise a collaborator returned settles.  A collaborator that
    throws before it returns a promise is a rejection to the caller that
    awaits it inside [try]. *)
Inductive settlement : Type :=
| Fulfilled (result : value)
| Rejected (reason : value).

(** [await p] *)
Definition await {S : Type} (p : settlement) : eff S value :=
  match p with
  | Fulfilled v => ret v
  | Rejected e => raise e
  end.

End JS.
Import JS.

(** ** The server record *)

(** Modelled from the spec: the declarations of [@/types/mcp] are not
    among the sources.  A tool has a [name], a [description] and a
    [schema] that is a structured value or a string of JSON. *)
Module McpTool.

Record t : Type := mk {
  name : string;
  description : string;
  schema : value
}.

(** The object the component receives for a tool. *)
Definition to_value (tool : t) : value :=
  VObj [("name", VStr (name tool));
        ("description", VStr (description tool));
        ("schema", schema tool)].

End McpTool.

(** Modelled from the spec: the declarations of [@/types/mcp] are not
    among the sources.  The fields are the ones the components read, typed
    the way they are read: a field tested with [||], [?.] or [!] may be
    absent; [args], [headers] and [tools] arrive as the backend sent them
    and are inspected at run time. *)
Module McpServer.

Record t : Type := mk {
  name : string;
  description : option string;
  transport : string;
  url : option string;
  command : option string;
  args : value;
  requiresOauth2 : option bool;
  isPublic : option bool;
  headers : value;
  connectionStatus : option string;
  tools : value
}.

(** The record with another status. *)
Definition with_connectionStatus (status : option string) (server : t) : t :=
  mk (name server) (description server) (transport server) (url server)
     (command server) (args server) (requiresOauth2 server) (isPublic server)
     (headers server) status (tools server).

End McpServer.

(** [s || d] for a string that may be absent. *)
Definition string_or (s : option string) (d : string) : string :=
  match s with
  | Some x => if String.eqb x EmptyString then d else x
  | None => d
  end.

(** [b || false] for a flag that may be absent. *)
Definition bool_or_false (b : option bool) : bool :=
  match b with
  | Some x => x
  | None => false
  end.

(** [s?.toUpperCase() === k] *)
Definition upper_is (s : option string) (k : string) : bool :=
  match s with
  | Some x => String.eqb (toUpperCase x) k
  | None => false
  end.

(** ** ServerManagement.tsx *)

Module ServerManagement.

(** ['restart' | 'activate' | 'deactivate'] *)
Inductive action : Type := restart | activate | deactivate.

Definition action_name (a : action) : string :=
  match a with
  | restart => "restart"
  | activate => "activate"
  | deactivate => "deactivate"
  end.

(** [loading]: the name of the action in flight, or [null]. *)
Definition State : Type := option string.

Inductive icon : Type :=
| Power | CheckCircle | XCircle | Loader2 | Pause | Play | RotateCcw.

Definition getStatusColor (status : option string) : string :=
  match status with
  | None => "outline"
  | Some s =>
      if String.eqb s EmptyString then "outline"
      else
        let u := toUpperCase s in
        if String.eqb u "CONNECTED" then "default"
        else if String.eqb u "DISCONNECTED" then "secondary"
        else if String.eqb u "FAILED" then "destructive"
        else "outline"
  end.

Definition getStatusIcon (status : option string) : icon :=
  match status with
  | None => Power
  | Some s =>
      if String.eqb s EmptyString then Power
      else
        let u := toUpperCase s in
        if String.eqb u "CONNECTED" then CheckCircle
        else if String.eqb u "DISCONNECTED" then XCircle
        else if String.eqb u "FAILED" then XCircle
        else Power
  end.

(** The message of the success notification: the collaborator's, when the
    result is an object with a string [message]. *)
Definition result_message (result : value) : option string :=
  if (truthy result && String.eqb (typeof result) "object"
      && has_property "message" result)%bool
  then match get_member result "message" with
       | Normal (VStr m) => Some m
       | _ => None
       end
  else None.

(** [error instanceof Error ? error.message : fallback] *)
Definition error_message (error : value) (fallback : string) : string :=
  match error with
  | VError m => m
  | _ => fallback
  end.

Section Component.

Variable server : McpServer.t.
Variable onAction : string -> action -> settlement.

Definition setLoading (l : option string) : eff State unit :=
  set_state (fun _ => l).

Definition handleAction (a : action) : eff State unit :=
  setLoading (Some (action_name a)) ;;
  try_finally
    (catch
       (result <- await (onAction (McpServer.name server) a) ;;
        let message :=
          match result_message result with
          | Some m => m
          | None => "Server " ++ action_name a ++ "d successfully"
          end in
        toast_success message)
       (fun error =>
          console_error ("Failed to " ++ action_name a ++ " server:") error ;;
          let errorMessage :=
            error_message error ("Failed to " ++ action_name a ++ " server") in
          toast_error errorMessage))
    (setLoading None).

(** [if (loading)] *)
Definition in_flight (loading : State) : bool :=
  match loading with
  | Some a => negb (String.eqb a EmptyString)
  | None => false
  end.

Definition isActionDisabled (loading : State) (action : string) : bool :=
  if in_flight loading then true
  else if String.eqb action "activate"
       then upper_is (McpServer.connectionStatus server) "CONNECTED"
  else if String.eqb action "deactivate"
       then negb (upper_is (McpServer.connectionStatus server) "CONNECTED")
  else if String.eqb action "restart" then false
  else false.

(** The class of the status dot. *)
Definition statusDotClass : string :=
  let status := McpServer.connectionStatus server in
  if upper_is status "CONNECTED" then "bg-green-500 hover:bg-green-600 animate-pulse"
  else if upper_is status "DISCONNECTED" then "bg-yellow-500 hover:bg-yellow-600"
  else if upper_is status "FAILED" then "bg-red-500 hover:bg-red-600 animate-pulse"
  else "bg-gray-400 hover:bg-gray-500".

(** [server.connectionStatus || "Unknown"] *)
Definition statusLabel : string :=
  string_or (McpServer.connectionStatus server) "Unknown".

Record control : Type := mkControl {
  control_action : action;
  control_disabled : bool;
  control_icon : icon
}.

(** The primary button: Deactivate for a connected server, Activate
    otherwise; it shows a spinner while its own action is in flight. *)
Definition primaryButton (loading : State) : control :=
  let spinner (a : action) (idle : icon) :=
    match loading with
    | Some l => if String.eqb l (action_name a) then Loader2 else idle
    | None => idle
    end in
  if upper_is (McpServer.connectionStatus server) "CONNECTED"
  then mkControl deactivate (isActionDisabled loading "deactivate")
                 (spinner deactivate Pause)
  else mkControl activate (isActionDisabled loading "activate")
                 (spinner activate Play).

(** The action entries of the menu: the one the primary button does not
    offer, then Restart. *)
Definition menuActions (loading : State) : list control :=
  [ if upper_is (McpServer.connectionStatus server) "CONNECTED"
    then mkControl activate (isActionDisabled loading "activate") Play
    else mkControl deactivate (isActionDisabled loading "deactivate") Pause;
    mkControl restart (isActionDisabled loading "restart") RotateCcw ].

Record view : Type := mkView {
  dot_class : string;
  badge_variant : string;
  badge_icon : icon;
  badge_label : string;
  primary : control;
  menu_disabled : bool;
  menu : list control
}.

Definition render (loading : State) : view :=
  let status := McpServer.connectionStatus server in
  mkView statusDotClass (getStatusColor status) (getStatusIcon status)
         statusLabel (primaryButton loading)
         (match loading with Some _ => true | None => false end)
         (menuActions loading).

End Component.

End ServerManagement.

(** ** The validation library

    The combinators [serverSchema] is built from, and what parsing a value
    against them reports. *)

Module Zod.

Inductive schema : Type :=
| z_string                                  (* z.string() *)
| z_string_min (n : nat) (message : string) (* z.string().min(n, message) *)
| z_boolean                                 (* z.boolean() *)
| z_enum (options : list string)            (* z.enum([...]) *)
| z_optional (inner : schema)               (* s.optional() *)
| z_array (item : schema)                   (* z.array(s) *)
| z_object (shape : list (string * schema)). (* z.object({...}) *)

Inductive segment : Type :=
| Key (k : string)
| Index (i : nat).

Record issue : Type := mkIssue {
  path : list segment;
  message : string
}.

Definition type_issue (p : list segment) (expected : string) (v : value) : issue :=
  match v with
  | VUndefined => mkIssue p "Required"
  | VNull => mkIssue p ("Expected " ++ expected ++ ", received null")
  | VArr _ => mkIssue p ("Expected " ++ expected ++ ", received array")
  | _ => mkIssue p ("Expected " ++ expected ++ ", received " ++ typeof v)
  end.

Definition string_in (s : string) (options : list string) : bool :=
  existsb (String.eqb s) options.

(** The options of an enum as an issue words them: ['a' | 'b']. *)
Definition joined_options (options : list string) : string :=
  join " | " (map (fun o => "'" ++ o ++ "'") options).

(** [obj[k]] for the properties of an object. *)
Definition member (k : string) (props : list (string * value)) : value :=
  match lookup k props with
  | Some x => x
  | None => VUndefined
  end.

(** The items of an array, each with its index. *)
Definition indexed (xs : list value) : list (nat * value) :=
  combine (seq 0 (List.length xs)) xs.

(** The issues of [v] against [s], at path [p]; none when [v] is valid. *)
Fixpoint issues (s : schema) (p : list segment) (v : value) : list issue :=
  match s with
  | z_string =>
      match v with
      | VStr _ => []
      | _ => [type_issue p "string" v]
      end
  | z_string_min n message =>
      match v with
      | VStr x => if Nat.ltb (string_length x) n then [mkIssue p message] else []
      | _ => [type_issue p "string" v]
      end
  | z_boolean =>
      match v with
      | VBool _ => []
      | _ => [type_issue p "boolean" v]
      end
  | z_enum options =>
      match v with
      | VStr x =>
          if string_in x options then []
          else [mkIssue p ("Invalid enum value. Expected " ++ joined_options options
                           ++ ", received '" ++ x ++ "'")]
      | _ => [type_issue p (joined_options options) v]
      end
  | z_optional inner =>
      match v with
      | VUndefined => []
      | _ => issues inner p v
      end
  | z_array item =>
      match v with
      | VArr xs =>
          flat_map (fun ix => issues item (p ++ [Index (fst ix)])%list (snd ix))
                   (indexed xs)
      | _ => [type_issue p "array" v]
      end
  | z_object shape =>
      match v with
      | VObj props =>
          flat_map (fun ks => issues (snd ks) (p ++ [Key (fst ks)])%list
                                     (member (fst ks) props))
                   shape
      | _ => [type_issue p "object" v]
      end
  end.

(** [schema.safeParse(v).success] *)
Definition accepts (s : schema) (v : value) : bool :=
  match issues s [] v with
  | [] => true
  | _ :: _ => false
  end.

End Zod.

(** ** ServerFormModal.tsx *)

Module ServerFormModal.

Import Zod.

Definition serverSchema : schema :=
  z_object
    [("name", z_string_min 1 "Server name is required");
     ("description", z_optional z_string);
     ("transport", z_enum ["sse"; "streamable_http"; "stdio"]);
     ("url", z_optional z_string);
     ("command", z_optional z_string);
     ("args", z_optional z_string);
     ("requiresOauth", z_optional z_boolean);
     ("isPublic", z_optional z_boolean);
     ("headers", z_optional (z_array (z_object [("key", z_string);
                                                 ("value", z_string)])))].

Record header : Type := mkHeader {
  key : string;
  value_ : string
}.

(** The values of the form.  [transport] is typed as one of the three
    kinds, and holds whatever string the form was reset to. *)
Record ServerFormData : Type := mkData {
  name : string;
  description : option string;
  transport : string;
  url : option string;
  command : option string;
  args : option string;
  requiresOauth : option bool;
  isPublic : option bool;
  headers : option (list header)
}.

Definition header_value (h : header) : value :=
  VObj [("key", VStr (key h)); ("value", VStr (value_ h))].

Definition optional {A : Type} (f : A -> value) (x : option A) : value :=
  match x with
  | Some a => f a
  | None => VUndefined
  end.

(** The object the resolver validates. *)
Definition data_value (d : ServerFormData) : value :=
  VObj [("name", VStr (name d));
        ("description", optional VStr (description d));
        ("transport", VStr (transport d));
        ("url", optional VStr (url d));
        ("command", optional VStr (command d));
        ("args", optional VStr (args d));
        ("requiresOauth", optional VBool (requiresOauth d));
        ("isPublic", optional VBool (isPublic d));
        ("headers", optional (fun hs => VArr (map header_value hs)) (headers d))].

(** The blocking errors of a submission: [zodResolver(serverSchema)]. *)
Definition validate (d : ServerFormData) : list issue :=
  issues serverSchema [] (data_value d).

Inductive Mode : Type := add | edit.

(** The component's own state: the form's values, its field errors, the
    headers disclosure and the transport the sub-form follows.  [isOpen]
    belongs to the parent, which [onClose] asks to close the dialog. *)
Record State : Type := mkState {
  values : ServerFormData;
  errors : list issue;
  showHeaders : bool;
  transportType : string;
  isOpen : bool
}.

Definition defaultValues : ServerFormData :=
  mkData EmptyString (Some EmptyString) "sse" (Some EmptyString)
         (Some EmptyString) (Some EmptyString) (Some false) (Some false)
         (Some []).

(** The state of a dialog that has not been opened yet. *)
Definition initialState : State :=
  mkState defaultValues [] false "sse" false.

(** The [args] of a record as the form edits them. *)
Definition args_text (a : value) : string :=
  if truthy a
  then match a with
       | VStr s => s
       | _ => JSON_stringify a
       end
  else EmptyString.

(** The values an [edit] form starts from. *)
Definition editValues (server : McpServer.t) : ServerFormData :=
  mkData (McpServer.name server)
         (Some (string_or (McpServer.description server) EmptyString))
         (McpServer.transport server)
         (Some (string_or (McpServer.url server) EmptyString))
         (Some (string_or (McpServer.command server) EmptyString))
         (Some (args_text (McpServer.args server)))
         (Some (bool_or_false (McpServer.requiresOauth2 server)))
         (Some (bool_or_false (McpServer.isPublic server)))
         (Some []).

(** [reset(values)] of the form library: new values, no errors. *)
Definition reset (d : ServerFormData) (st : State) : State :=
  mkState d [] (showHeaders st) (transportType st) (isOpen st).

Definition setTransportType (k : string) (st : State) : State :=
  mkState (values st) (errors st) (showHeaders st) k (isOpen st).

Definition setShowHeaders (b : bool) (st : State) : State :=
  mkState (values st) (errors st) b (transportType st) (isOpen st).

(** The effect that runs when the dialog's [isOpen], [mode] or [server]
    changes. *)
Definition resetOnOpen (mode : Mode) (server : option McpServer.t) (st : State)
  : State :=
  if isOpen st then
    let st' :=
      match mode, server with
      | edit, Some srv =>
          setTransportType (McpServer.transport srv) (reset (editValues srv) st)
      | _, _ => setTransportType "sse" (reset defaultValues st)
      end in
    setShowHeaders false st'
  else st.

(** The effect that runs when the watched [transport] changes. *)
Definition followTransport (st : State) : State :=
  setTransportType (transport (values st)) st.

(** The parent opens the dialog; the two effects follow. *)
Definition open (mode : Mode) (server : option McpServer.t) (st : State) : State :=
  followTransport
    (resetOnOpen mode server
       (mkState (values st) (errors st) (showHeaders st) (transportType st) true)).

(** The header rows the sub-form shows. *)
Definition headerRows (st : State) : list header :=
  match headers (values st) with
  | Some hs => hs
  | None => []
  end.

Section Component.

Variable mode : Mode.
Variable onSubmit : ServerFormData -> settlement.

(** [onClose()]: the parent closes the dialog. *)
Definition onClose : eff State unit :=
  set_state (fun st =>
    mkState (values st) (errors st) (showHeaders st) (transportType st) false).

Definition handleFormSubmit (data : ServerFormData) : eff State unit :=
  catch
    (_ <- await (onSubmit data) ;;
     onClose ;;
     toast_success ("Server " ++
                    (match mode with add => "added" | edit => "updated" end) ++
                    " successfully"))
    (fun error =>
       console_error "Form submission error:" error ;;
       toast_error ("Failed to " ++
                    (match mode with add => "add" | edit => "update" end) ++
                    " server")).

(** [handleSubmit(handleFormSubmit)] of the form library: the handler
    runs when the resolver reports no issue; otherwise the issues become
    the form's errors and the handler is not called. *)
Definition submit : eff State unit :=
  fun w =>
    let st := ui w in
    match validate (values st) with
    | [] =>
        (set_state (fun st => mkState (values st) [] (showHeaders st)
                                      (transportType st) (isOpen st)) ;;
         handleFormSubmit (values st)) w
    | errs =>
        set_state (fun st => mkState (values st) errs (showHeaders st)
                                     (transportType st) (isOpen st)) w
    end.

End Component.

End ServerFormModal.

(** ** ToolsExplorer.tsx

    The debug lines written with [console.log] on every render are no part
    of the view and are left out. *)

Module ToolsExplorer.

(** ['grid' | 'list'] *)
Inductive ViewMode : Type := grid | list_.

(** ['all' | 'available' | 'unavailable'] *)
Inductive FilterStatus : Type := all | available | unavailable.

Definition filter_eqb (a b : FilterStatus) : bool :=
  match a, b with
  | all, all | available, available | unavailable, unavailable => true
  | _, _ => false
  end.

Record State : Type := mkState {
  searchTerm : string;
  viewMode : ViewMode;
  expandedTool : option string;
  filterStatus : FilterStatus
}.

Definition initialState : State := mkState EmptyString grid None all.

(** [Array.isArray(server.tools) ? server.tools : []] *)
Definition tools_of (server : McpServer.t) : list value :=
  match McpServer.tools server with
  | VArr items => items
  | _ => []
  end.

(** [tool.name.toLowerCase().includes(searchTerm.toLowerCase()) ||
     tool.description.toLowerCase().includes(searchTerm.toLowerCase())] *)
Definition matchesSearch (searchTerm : string) (tool : value) : completion bool :=
  name <- get_member tool "name" ;;
  lname <- call_toLowerCase name ;;
  if includes lname (toLowerCase searchTerm) then ret true
  else
    description <- get_member tool "description" ;;
    ldescription <- call_toLowerCase description ;;
    ret (includes ldescription (toLowerCase searchTerm)).

(** [filterStatus === 'all' || filterStatus === 'available'] *)
Definition matchesFilter (filterStatus : FilterStatus) : bool :=
  (filter_eqb filterStatus all || filter_eqb filterStatus available)%bool.

(** The callback of [tools.filter]. *)
Definition keeps (searchTerm : string) (filterStatus : FilterStatus) (tool : value)
  : completion bool :=
  found <- matchesSearch searchTerm tool ;;
  ret ((found : bool) && matchesFilter filterStatus)%bool.

(** What the callback computes on a tool of the declared type, where no
    member read can fail. *)
Definition selects (searchTerm : string) (filterStatus : FilterStatus)
  (tool : McpTool.t) : bool :=
  ((includes (toLowerCase (McpTool.name tool)) (toLowerCase searchTerm)
    || includes (toLowerCase (McpTool.description tool)) (toLowerCase searchTerm))
   && matchesFilter filterStatus)%bool.

Definition filteredTools (tools : list value) (searchTerm : string)
  (filterStatus : FilterStatus) : completion (list value) :=
  filterM (keeps searchTerm filterStatus) tools.

Definition toggleToolExpansion (toolName : string) (st : State) : State :=
  mkState (searchTerm st) (viewMode st)
          (match expandedTool st with
           | Some open => if String.eqb open toolName then None else Some toolName
           | None => Some toolName
           end)
          (filterStatus st).

Definition is_null (v : value) : bool :=
  match v with VNull => true | _ => false end.

Definition parseSchema (schema : value) : completion value :=
  if (String.eqb (typeof schema) "object" && negb (is_null schema))%bool
  then ret schema
  else
    match schema with
    | VStr text => catch (JSON_parse text) (fun _ => ret VNull)
    | _ => ret VNull
    end.

Definition getToolCategory (toolName : string) : string :=
  if (includes toolName "search" || includes toolName "find")%bool then "Search"
  else if (includes toolName "create" || includes toolName "add")%bool then "Create"
  else if (includes toolName "update" || includes toolName "edit")%bool then "Update"
  else if (includes toolName "delete" || includes toolName "remove")%bool then "Delete"
  else if (includes toolName "get" || includes toolName "fetch")%bool then "Read"
  else "General".

Definition getCategoryColor (category : string) : string :=
  if String.eqb category "Search" then "default"
  else if String.eqb category "Create" then "default"
  else if String.eqb category "Update" then "secondary"
  else if String.eqb category "Delete" then "destructive"
  else if String.eqb category "Read" then "outline"
  else "secondary".

Definition getNoToolsMessage (connectionStatus : option string) : string :=
  match connectionStatus with
  | Some s =>
      if String.eqb s "CONNECTED"
      then "This server is connected but doesn't have any tools available."
      else if String.eqb s "FAILED"
      then "Server connection failed. Tools cannot be loaded."
      else "Connect to this server to load and view available tools."
  | None => "Connect to this server to load and view available tools."
  end.

(** One card (or row) of the explorer.  [card_schema] is the parsed
    schema; the schema toggle is there when it is truthy.  [card_panel] is
    the text of the schema panel, when the panel is shown: the grid shows
    it for the expanded tool inside the schema section, the list shows it
    for the expanded tool whether there is a schema section or not.
    [card_guard_text] is what [schema && ...] leaves in the card when the
    schema is a number that is falsy: the number itself. *)
Record card : Type := mkCard {
  card_name : string;
  card_description : value;
  card_category : string;
  card_badge : string;
  card_schema : value;
  card_has_schema : bool;
  card_expanded : bool;
  card_panel : option string;
  card_guard_text : option string
}.

(** What [{v && ...}] renders when [v] is falsy: a number as its text,
    nothing for [null], [undefined], [false] and the empty text. *)
Definition guard_text (v : value) : option string :=
  match v with
  | VNum m e => if truthy v then None else Some (number_to_string m e)
  | _ => None
  end.

Definition card_of (st : State) (tool : value) : completion card :=
  name <- get_member tool "name" ;;
  (* a name that is no string has made the filter throw before *)
  toolName <- match name with
              | VStr s => ret s
              | _ => raise (TypeError "toolName.includes is not a function")
              end ;;
  let category := getToolCategory toolName in
  raw <- get_member tool "schema" ;;
  schema <- parseSchema raw ;;
  description <- get_member tool "description" ;;
  let expanded :=
    match expandedTool st with
    | Some open => String.eqb open toolName
    | None => false
    end in
  let shown :=
    match viewMode st with
    | grid => (truthy schema && expanded)%bool
    | list_ => expanded
    end in
  ret (mkCard toolName description category (getCategoryColor category)
              schema (truthy schema) expanded
              (if shown then Some (JSON_stringify_gap "  " EmptyString schema)
               else None)
              (guard_text schema)).

Inductive view : Type :=
| NoToolsAvailable (message : string)
| Explorer (mode : ViewMode) (shown total : nat) (cards : list card)
           (noToolsFound : bool).

Definition render (server : McpServer.t) (st : State) : completion view :=
  let tools := tools_of server in
  filtered <- filteredTools tools (searchTerm st) (filterStatus st) ;;
  if Nat.eqb (List.length tools) 0
  then ret (NoToolsAvailable (getNoToolsMessage (McpServer.connectionStatus server)))
  else
    cards <- mapM (card_of st) filtered ;;
    ret (Explorer (viewMode st) (List.length filtered) (List.length tools) cards
                  (Nat.eqb (List.length filtered) 0)).

End ToolsExplorer.

(** ** ToolsExplorer.tsx: the controls

    The handlers of the search box, the view-mode toggle and the filter
    menu: each sets one piece of the state. *)

Module ToolsExplorerControls.

Import ToolsExplorer.

Definition setSearchTerm (text : string) (st : State) : State :=
  mkState text (viewMode st) (expandedTool st) (filterStatus st).

Definition setViewMode (mode : ViewMode) (st : State) : State :=
  mkState (searchTerm st) mode (expandedTool st) (filterStatus st).

Definition setFilterStatus (selection : FilterStatus) (st : State) : State :=
  mkState (searchTerm st) (viewMode st) (expandedTool st) selection.

End ToolsExplorerControls.

(** ** The words of the specification

    The notions the specification states its properties with, written
    independently of the components. *)

Module Spec.

(** A text of characters below 128. *)
Fixpoint ascii_text (s : string) : bool :=
  match s with
  | EmptyString => true
  | String c s' => (N.ltb (N_of_ascii c) 128 && ascii_text s')%bool
  end.

(** The letters A-Z of a text as a-z, and the other way round; every
    other character is kept. *)
Fixpoint ascii_lower (s : string) : string :=
  match s with
  | EmptyString => EmptyString
  | String c s' => String (lower_ascii c) (ascii_lower s')
  end.

Fixpoint ascii_upper (s : string) : string :=
  match s with
  | EmptyString => EmptyString
  | String c s' => String (upper_ascii c) (ascii_upper s')
  end.

(** The other case of a letter; any other character is itself. *)
Definition swap_case (c : ascii) : ascii :=
  if is_lower_ascii c then ascii_of_nat (nat_of_ascii c - 32)
  else if is_upper_ascii c then ascii_of_nat (nat_of_ascii c + 32)
  else c.

(** Two code points that are one code point, or one letter of a-z and
    A-Z in its two cases. *)
Definition same_letter (p q : N) : Prop :=
  q = p
  \/ exists c : ascii,
       (N_of_ascii c < 128)%N /\ p = N_of_ascii c /\ q = N_of_ascii (swap_case c).

(** [t] is a letter-case variant of [s]: the same characters, each in
    either case. *)
Inductive case_variant : string -> string -> Prop :=
| cv_empty : case_variant EmptyString EmptyString
| cv_same (c : ascii) (s t : string) :
    case_variant s t -> case_variant (String c s) (String c t)
| cv_swap (c : ascii) (s t : string) :
    case_variant s t -> case_variant (String c s) (String (swap_case c) t).

(** [s] contains [q] case-insensitively: some stretch of [s] is a
    letter-case variant of [q]. *)
Definition contains_ignoring_case (s q : string) : Prop :=
  exists pre mid post : string,
    s = (pre ++ mid ++ post)%string /\ case_variant mid q.

(** The status of the server, compared case-insensitively, is [k]. *)
Definition status_is (server : McpServer.t) (k : string) : Prop :=
  exists s : string,
    McpServer.connectionStatus server = Some s /\ case_variant s k.

(** The status of the server, in upper case, is [k]. *)
Definition status_upper_is (server : McpServer.t) (k : string) : Prop :=
  exists s : string,
    McpServer.connectionStatus server = Some s /\ toUpperCase s = k.

(** A tool is included, in the words of the specification. *)
Definition included (searchTerm : string) (filterStatus : ToolsExplorer.FilterStatus)
  (tool : McpTool.t) : Prop :=
  (contains_ignoring_case (McpTool.name tool) searchTerm
   \/ contains_ignoring_case (McpTool.description tool) searchTerm)
  /\ (filterStatus = ToolsExplorer.all \/ filterStatus = ToolsExplorer.available).

(** The three transport kinds of a submission. *)
Definition transport_kinds : list string := ["sse"; "streamable_http"; "stdio"].

End Spec.

(** ** Sample data: the inputs the specification names *)

Module Examples.

Definition search_users : value :=
  VObj [("name", VStr "search_users"); ("description", VStr "Find users")].

Definition create_ticket : value :=
  VObj [("name", VStr "create_ticket"); ("description", VStr "Open ticket")].

Definition two_tools : list value := [search_users; create_ticket].

(** The text [{"type":"object"}]. *)
Definition object_schema_text : string :=
  "{" ++ quoted "type" ++ ":" ++ quoted "object" ++ "}".

Definition bad_schema_text : string := "{bad json".

Definition server_with (status : option string) (tools : value) : McpServer.t :=
  McpServer.mk "files" (Some "File tools") "stdio" None (Some "python")
               (VArr [VStr "-m"; VStr "my_module"]) None (Some true)
               (VObj [("Authorization", VStr "Bearer token123")])
               status tools.

(** A form the user has worked on: a stdio server with no command, and a
    header row left from an earlier choice of transport. *)
Definition stdio_without_command : ServerFormModal.ServerFormData :=
  ServerFormModal.mkData "local" (Some EmptyString) "stdio" (Some EmptyString)
    (Some EmptyString) (Some EmptyString) (Some false) (Some false)
    (Some [ServerFormModal.mkHeader "Authorization" "Bearer token123"]).

Definition sse_without_url : ServerFormModal.ServerFormData :=
  ServerFormModal.mkData "remote" None "sse" (Some EmptyString) None None
    None None None.

(** The capital sigma (code point 931), the small sigma (963) and the
    final sigma (962), each as its two bytes. *)
Definition capital_sigma : string :=
  String (ascii_of_nat 206) (String (ascii_of_nat 163) EmptyString).

Definition small_sigma : string :=
  String (ascii_of_nat 207) (String (ascii_of_nat 131) EmptyString).

Definition final_sigma : string :=
  String (ascii_of_nat 207) (String (ascii_of_nat 130) EmptyString).

(** A tool whose name ends in a capital sigma. *)
Definition sigma_tool : McpTool.t :=
  McpTool.mk ("a" ++ capital_sigma) EmptyString VUndefined.

(** A tool object the backend sent without a description. *)
Definition undescribed (name : string) : value := VObj [("name", VStr name)].

Definition typed_tools : list McpTool.t :=
  [McpTool.mk "search_users" "Find users" (VStr object_schema_text);
   McpTool.mk "create_ticket" "Open ticket" (VStr bad_schema_text)].

(** The same submission with texts no field ought to hold. *)
Definition stdio_with_odd_fields : ServerFormModal.ServerFormData :=
  ServerFormModal.mkData "local" None "stdio" (Some "not a url") None
    (Some "[-m, my_module") None None
    (Some [ServerFormModal.mkHeader EmptyString EmptyString;
           ServerFormModal.mkHeader EmptyString EmptyString]).

Definition edited_form : ServerFormModal.State :=
  ServerFormModal.mkState stdio_without_command [] true "stdio" false.

End Examples.

(* ===================================================================== *)
(** * Part II. Properties                                                 *)
(* ===================================================================== *)

Import Spec.

(** ** Characters and strings *)

Ltac each_ascii c := destruct c as [[] [] [] [] [] [] [] []].

Lemma upper_swap_case (c : ascii) : upper_ascii (swap_case c) = upper_ascii c.
Proof. each_ascii c; reflexivity. Qed.

Lemma lower_swap_case (c : ascii) : lower_ascii (swap_case c) = lower_ascii c.
Proof. each_ascii c; reflexivity. Qed.

Lemma swap_case_involutive (c : ascii) : swap_case (swap_case c) = c.
Proof. each_ascii c; reflexivity. Qed.

Lemma upper_fibre (c : ascii) :
  c = upper_ascii c \/ c = swap_case (upper_ascii c).
Proof. each_ascii c; (left; reflexivity) || (right; reflexivity). Qed.

Lemma lower_fibre (c : ascii) :
  c = lower_ascii c \/ c = swap_case (lower_ascii c).
Proof. each_ascii c; (left; reflexivity) || (right; reflexivity). Qed.

Lemma same_fibre (f : ascii -> ascii) (a b : ascii) :
  (forall c, c = f c \/ c = swap_case (f c)) ->
  f a = f b -> b = a \/ b = swap_case a.
Proof.
  intros fibre Hab.
  destruct (fibre a) as [Ha | Ha], (fibre b) as [Hb | Hb];
    rewrite <- Hab in Hb.
  - left. congruence.
  - right. congruence.
  - right. rewrite Ha, swap_case_involutive. exact Hb.
  - left. congruence.
Qed.

Lemma upper_ascii_eq (a b : ascii) :
  upper_ascii a = upper_ascii b <-> b = a \/ b = swap_case a.
Proof.
  split.
  - apply same_fibre, upper_fibre.
  - intros [-> | ->]; [reflexivity | symmetry; apply upper_swap_case].
Qed.

Lemma lower_ascii_eq (a b : ascii) :
  lower_ascii a = lower_ascii b <-> b = a \/ b = swap_case a.
Proof.
  split.
  - apply same_fibre, lower_fibre.
  - intros [-> | ->]; [reflexivity | symmetry; apply lower_swap_case].
Qed.

Lemma case_variant_ascii_upper (s t : string) :
  case_variant s t <-> ascii_upper s = ascii_upper t.
Proof.
  split.
  - induction 1; simpl; [reflexivity | congruence |].
    rewrite upper_swap_case. congruence.
  - revert t. induction s as [| a s IH]; intros [| b t] H; simpl in H;
      try discriminate.
    + constructor.
    + injection H as Hc Hs. apply upper_ascii_eq in Hc as [-> | ->];
        constructor; auto.
Qed.

Lemma case_variant_ascii_lower (s t : string) :
  case_variant s t <-> ascii_lower s = ascii_lower t.
Proof.
  split.
  - induction 1; simpl; [reflexivity | congruence |].
    rewrite lower_swap_case. congruence.
  - revert t. induction s as [| a s IH]; intros [| b t] H; simpl in H;
      try discriminate.
    + constructor.
    + injection H as Hc Hs. apply lower_ascii_eq in Hc as [-> | ->];
        constructor; auto.
Qed.

Lemma case_variant_refl (s : string) : case_variant s s.
Proof. apply case_variant_ascii_upper. reflexivity. Qed.

Lemma case_variant_sym (s t : string) : case_variant s t -> case_variant t s.
Proof. rewrite !case_variant_ascii_upper. congruence. Qed.

(** ** Case conversion on texts of characters below 128 *)

Lemma ascii_text_chars (s : string) :
  ascii_text s = true <->
  Forall (fun c => (N_of_ascii c < 128)%N) (list_ascii_of_string s).
Proof.
  induction s as [| c s IH]; cbn [ascii_text list_ascii_of_string].
  - split; [constructor | reflexivity].
  - rewrite andb_true_iff, N.ltb_lt, IH. split.
    + intros [Hc Hs]. now constructor.
    + intros H. inversion H. now split.
Qed.

Lemma decode_step_small (st : partial) (b : N) :
  (b < 128)%N -> decode_step st b = (Whole, (strays st ++ [b])%list).
Proof. intros H. unfold decode_step. apply N.ltb_lt in H. now rewrite H. Qed.

Lemma decode_small (cs : list ascii) :
  Forall (fun c => (N_of_ascii c < 128)%N) cs ->
  decode Whole (string_of_list_ascii cs) = map N_of_ascii cs.
Proof.
  induction 1 as [| c cs Hc _ IH]; cbn [string_of_list_ascii decode map].
  - reflexivity.
  - rewrite (decode_step_small _ _ Hc). cbn [strays app]. now rewrite IH.
Qed.

Lemma small_is_no_surrogate (u : N) :
  (u < 55296)%N -> is_high_surrogate u = false /\ is_low_surrogate u = false.
Proof.
  intros H. unfold is_high_surrogate, is_low_surrogate.
  rewrite !andb_false_iff, !N.leb_gt. split; left; lia.
Qed.

Lemma pair_up_small (us : list N) :
  Forall (fun u => (u < 55296)%N) us -> pair_up None us = us.
Proof.
  induction 1 as [| u us Hu _ IH]; cbn [pair_up pair_step]; [reflexivity |].
  destruct (small_is_no_surrogate u Hu) as [-> _]. cbn [app]. now rewrite IH.
Qed.

Lemma lower_point_small (c : ascii) :
  (N_of_ascii c < 128)%N ->
  lower_point (N_of_ascii c) = [N_of_ascii (lower_ascii c)]
  /\ upper_point (N_of_ascii c) = [N_of_ascii (upper_ascii c)]
  /\ point_bytes (N_of_ascii c) = [c]
  /\ (N_of_ascii (lower_ascii c) < 128)%N
  /\ (N_of_ascii (upper_ascii c) < 128)%N.
Proof.
  each_ascii c; intros H; try (vm_compute in H; discriminate H);
    vm_compute; repeat split.
Qed.

Lemma lower_points_small (after_cased : bool) (cs : list ascii) :
  Forall (fun c => (N_of_ascii c < 128)%N) cs ->
  lower_points after_cased (map N_of_ascii cs)
  = map N_of_ascii (map lower_ascii cs).
Proof.
  intros H. revert after_cased.
  induction H as [| c cs Hc _ IH]; intros after_cased;
    cbn [map lower_points]; [reflexivity |].
  replace (N_of_ascii c =? 931)%N with false
    by (symmetry; apply N.eqb_neq; lia).
  cbn [andb]. destruct (lower_point_small c Hc) as (-> & _).
  cbn [app]. now rewrite IH.
Qed.

Lemma upper_points_small (cs : list ascii) :
  Forall (fun c => (N_of_ascii c < 128)%N) cs ->
  flat_map upper_point (map N_of_ascii cs)
  = map N_of_ascii (map upper_ascii cs).
Proof.
  induction 1 as [| c cs Hc _ IH]; cbn [map flat_map]; [reflexivity |].
  destruct (lower_point_small c Hc) as (_ & -> & _). cbn [app]. now rewrite IH.
Qed.

Lemma of_code_points_small (cs : list ascii) :
  Forall (fun c => (N_of_ascii c < 128)%N) cs ->
  of_code_points (map N_of_ascii cs) = string_of_list_ascii cs.
Proof.
  unfold of_code_points. intros H. f_equal.
  induction H as [| c cs Hc _ IH]; cbn [map flat_map]; [reflexivity |].
  destruct (lower_point_small c Hc) as (_ & _ & -> & _). cbn [app]. now rewrite IH.
Qed.

Lemma ascii_lower_chars (s : string) :
  ascii_lower s = string_of_list_ascii (map lower_ascii (list_ascii_of_string s)).
Proof. induction s; cbn; congruence. Qed.

Lemma ascii_upper_chars (s : string) :
  ascii_upper s = string_of_list_ascii (map upper_ascii (list_ascii_of_string s)).
Proof. induction s; cbn; congruence. Qed.

Lemma Forall_small_map (f : ascii -> ascii) (cs : list ascii) :
  (forall c, (N_of_ascii c < 128)%N -> (N_of_ascii (f c) < 128)%N) ->
  Forall (fun c => (N_of_ascii c < 128)%N) cs ->
  Forall (fun c => (N_of_ascii c < 128)%N) (map f cs).
Proof. intros Hf H. induction H; cbn; constructor; auto. Qed.

Lemma Forall_small_units (cs : list ascii) :
  Forall (fun c => (N_of_ascii c < 128)%N) cs ->
  Forall (fun u => (u < 55296)%N) (map N_of_ascii cs).
Proof. intros H. induction H; cbn; constructor; auto. lia. Qed.

(** On a text of characters below 128 the case conversions are the
    conversions of the letters a-z and A-Z. *)
Lemma toLowerCase_ascii (s : string) :
  ascii_text s = true -> toLowerCase s = ascii_lower s.
Proof.
  intros H. apply ascii_text_chars in H. unfold toLowerCase, code_points.
  rewrite <- (string_of_list_ascii_of_string s) at 1.
  rewrite (decode_small _ H), (pair_up_small _ (Forall_small_units _ H)).
  rewrite (lower_points_small _ _ H), of_code_points_small, ascii_lower_chars;
    [reflexivity |].
  apply Forall_small_map; [| exact H].
  intros c Hc. now destruct (lower_point_small c Hc) as (_ & _ & _ & ? & _).
Qed.

Lemma toUpperCase_ascii (s : string) :
  ascii_text s = true -> toUpperCase s = ascii_upper s.
Proof.
  intros H. apply ascii_text_chars in H. unfold toUpperCase, code_points.
  rewrite <- (string_of_list_ascii_of_string s) at 1.
  rewrite (decode_small _ H), (pair_up_small _ (Forall_small_units _ H)).
  rewrite (upper_points_small _ H), of_code_points_small, ascii_upper_chars;
    [reflexivity |].
  apply Forall_small_map; [| exact H].
  intros c Hc. now destruct (lower_point_small c Hc) as (_ & _ & _ & _ & ?).
Qed.

(** ** Case conversion of letter-case variants *)

Lemma same_letter_refl (ps : list N) : Forall2 same_letter ps ps.
Proof. induction ps; constructor; auto. now left. Qed.

Lemma swap_case_small (c : ascii) :
  swap_case c = c
  \/ ((N_of_ascii c < 128)%N /\ (N_of_ascii (swap_case c) < 128)%N).
Proof. each_ascii c; (left; reflexivity) || (right; split; reflexivity). Qed.

Lemma decode_variant (s t : string) :
  case_variant s t ->
  forall st, Forall2 same_letter (decode st s) (decode st t).
Proof.
  induction 1 as [| c s t _ IH | c s t _ IH]; intros st; cbn [decode].
  - apply same_letter_refl.
  - destruct (decode_step st (N_of_ascii c)) as [st' units].
    apply Forall2_app; [apply same_letter_refl | apply IH].
  - destruct (swap_case_small c) as [-> | [Hc Hs]].
    + destruct (decode_step st (N_of_ascii c)) as [st' units].
      apply Forall2_app; [apply same_letter_refl | apply IH].
    + rewrite (decode_step_small _ _ Hc), (decode_step_small _ _ Hs).
      rewrite <- !app_assoc. apply Forall2_app; [apply same_letter_refl |].
      constructor; [| apply IH]. right. now exists c.
Qed.

Lemma same_letter_small (p q : N) :
  same_letter p q -> q = p \/ ((p < 128)%N /\ (q < 128)%N).
Proof.
  intros [-> | (c & Hc & -> & ->)]; [now left |].
  destruct (swap_case_small c) as [-> | ?]; auto.
Qed.

Lemma pair_step_small (high : option N) (u : N) :
  (u < 55296)%N ->
  pair_step high u
  = (None, match high with Some h => [h; u] | None => [u] end).
Proof.
  intros H. unfold pair_step.
  destruct (small_is_no_surrogate u H) as [-> ->]. now destruct high.
Qed.

Lemma pair_up_variant (us vs : list N) :
  Forall2 same_letter us vs ->
  forall high, Forall2 same_letter (pair_up high us) (pair_up high vs).
Proof.
  induction 1 as [| u v us vs Huv _ IH]; intros high; cbn [pair_up].
  - apply same_letter_refl.
  - destruct (same_letter_small _ _ Huv) as [-> | [Hu Hv]].
    + destruct (pair_step high u) as [high' points].
      apply Forall2_app; [apply same_letter_refl | apply IH].
    + rewrite !pair_step_small by lia.
      destruct high as [h |]; cbn [app].
      * constructor; [now left |]. constructor; [exact Huv | apply IH].
      * constructor; [exact Huv | apply IH].
Qed.

Lemma same_letter_points (p q : N) :
  same_letter p q ->
  lower_point p = lower_point q
  /\ upper_point p = upper_point q
  /\ cased p = cased q
  /\ case_ignorable p = case_ignorable q
  /\ (p =? 931)%N = (q =? 931)%N.
Proof.
  intros [-> | (c & Hc & -> & ->)]; [repeat split |].
  revert Hc. each_ascii c; intros H; try (vm_compute in H; discriminate H);
    vm_compute; repeat split.
Qed.

Lemma followed_by_cased_variant (ps qs : list N) :
  Forall2 same_letter ps qs -> followed_by_cased ps = followed_by_cased qs.
Proof.
  induction 1 as [| p q ps qs Hpq _ IH]; cbn [followed_by_cased]; [reflexivity |].
  destruct (same_letter_points _ _ Hpq) as (_ & _ & -> & -> & _).
  now rewrite IH.
Qed.

Lemma lower_points_variant (ps qs : list N) :
  Forall2 same_letter ps qs ->
  forall after_cased, lower_points after_cased ps = lower_points after_cased qs.
Proof.
  induction 1 as [| p q ps qs Hpq Hrest IH]; intros after_cased;
    cbn [lower_points]; [reflexivity |].
  destruct (same_letter_points _ _ Hpq) as (-> & _ & -> & -> & ->).
  now rewrite (followed_by_cased_variant _ _ Hrest), IH.
Qed.

Lemma upper_points_variant (ps qs : list N) :
  Forall2 same_letter ps qs ->
  flat_map upper_point ps = flat_map upper_point qs.
Proof.
  induction 1 as [| p q ps qs Hpq _ IH]; cbn [flat_map]; [reflexivity |].
  destruct (same_letter_points _ _ Hpq) as (_ & -> & _). now rewrite IH.
Qed.

(** Letter-case variants have the same lower case and the same upper
    case. *)
Lemma case_variant_toLowerCase (s t : string) :
  case_variant s t -> toLowerCase s = toLowerCase t.
Proof.
  intros H. unfold toLowerCase, code_points. f_equal.
  apply lower_points_variant, pair_up_variant, decode_variant, H.
Qed.

Lemma case_variant_toUpperCase (s t : string) :
  case_variant s t -> toUpperCase s = toUpperCase t.
Proof.
  intros H. unfold toUpperCase, code_points. f_equal.
  apply upper_points_variant, pair_up_variant, decode_variant, H.
Qed.

(** ** What upper-cases to CONNECTED *)

Lemma stray_big (b : N) : (128 <= stray b)%N.
Proof. unfold stray. lia. Qed.

Lemma strays_big (st : partial) :
  st = Whole \/ exists u, In u (strays st) /\ (128 <= u)%N.
Proof.
  destruct st as [| b1 | b1 | b1 b2]; [now left | right ..];
    exists (stray b1); (split; [now left | apply stray_big]).
Qed.

(** A byte from 128 on leaves a sequence open or gives a unit from 128
    on. *)
Lemma decode_step_big (st : partial) (b : N) :
  (128 <= b)%N ->
  fst (decode_step st b) <> Whole
  \/ exists u, In u (snd (decode_step st b)) /\ (128 <= u)%N.
Proof.
  intros Hb. unfold decode_step.
  destruct (N.ltb_spec b 128) as [? | _]; [lia |].
  destruct (N.ltb_spec b 192) as [_ | _].
  - destruct st as [| b1 | b1 | b1 b2].
    + right. exists (stray b). split; [now left | apply stray_big].
    + destruct (N.ltb_spec ((b1 - 192) * 64 + (b - 128)) 128); right.
      * exists (stray b1). split; [now left | apply stray_big].
      * eexists. split; [now left | eassumption].
    + left. discriminate.
    + destruct (N.ltb_spec ((b1 - 224) * 4096 + (b2 - 128) * 64 + (b - 128)) 2048);
        right.
      * exists (stray b1). split; [now left | apply stray_big].
      * eexists. split; [now left |]. lia.
  - destruct (N.ltb_spec b 224) as [_ | _]; [left; discriminate |].
    destruct (N.ltb_spec b 240) as [_ | _]; [left; discriminate |].
    right. exists (stray b). split; [| apply stray_big].
    cbn [snd]. apply in_or_app. right. now left.
Qed.

(** Units below 128 come from bytes below 128 only. *)
Lemma decode_small_inv (s : string) :
  forall st,
    Forall (fun u => (u < 128)%N) (decode st s) ->
    st = Whole /\ ascii_text s = true.
Proof.
  induction s as [| c s IH]; intros st H; cbn [decode ascii_text] in *.
  - destruct (strays_big st) as [-> | (u & Hin & Hu)]; [now split |].
    rewrite Forall_forall in H. specialize (H _ Hin). lia.
  - destruct (N.ltb_spec (N_of_ascii c) 128) as [Hc | Hc].
    + rewrite (decode_step_small _ _ Hc) in H.
      apply Forall_app in H as [H1 H2]. apply IH in H2 as [_ ->].
      split; [| reflexivity].
      destruct (strays_big st) as [-> | (u & Hin & Hu)]; [reflexivity |].
      rewrite Forall_forall in H1.
      specialize (H1 u (in_or_app _ _ _ (or_introl Hin))). lia.
    + exfalso. pose proof (decode_step_big st _ Hc) as Hbig.
      destruct (decode_step st (N_of_ascii c)) as [st' units].
      cbn [fst snd] in Hbig. apply Forall_app in H as [H1 H2].
      destruct Hbig as [Hst | (u & Hin & Hu)].
      * apply IH in H2 as [-> _]. now apply Hst.
      * rewrite Forall_forall in H1. specialize (H1 _ Hin). lia.
Qed.

(** Code points below 128 come from units below 128 only. *)
Lemma pair_up_small_inv (us : list N) :
  forall high,
    (forall h, high = Some h -> (128 <= h)%N) ->
    Forall (fun p => (p < 128)%N) (pair_up high us) ->
    high = None /\ Forall (fun u => (u < 128)%N) us.
Proof.
  induction us as [| u us IH]; intros high Hh H; cbn [pair_up] in H.
  - destruct high as [h |]; [| now split].
    apply Forall_inv in H. specialize (Hh h eq_refl). lia.
  - unfold pair_step in H. destruct high as [h |].
    + exfalso. specialize (Hh h eq_refl).
      destruct (is_low_surrogate u);
        [| destruct (is_high_surrogate u)]; cbn [app] in H;
        apply Forall_inv in H; lia.
    + destruct (is_high_surrogate u) eqn:Hu.
      * exfalso. cbn [app] in H. apply IH in H as [[=] _].
        intros h [= <-]. unfold is_high_surrogate in Hu.
        apply andb_true_iff in Hu as [Hu _]. apply N.leb_le in Hu. lia.
      * cbn [app] in H. pose proof (Forall_inv H) as Hsmall.
        apply Forall_inv_tail in H. apply IH in H as [_ Hrest]; [| discriminate].
        split; [reflexivity | now constructor].
Qed.

Lemma special_in_table (table : list (N * list N)) (p : N) (image : list N) :
  special_in table p = Some image -> In (p, image) table.
Proof.
  induction table as [| [c i] table IH]; cbn [special_in]; [discriminate |].
  destruct (N.eqb_spec p c) as [-> | _].
  - intros [= ->]. now left.
  - intros H. right. auto.
Qed.

Lemma map_in_table (ranges : list (N * N * N * N)) (p : N) :
  map_in ranges p = p
  \/ exists first last step image,
      In (first, last, step, image) ranges
      /\ (first <= p <= last)%N
      /\ map_in ranges p = (image + (p - first))%N.
Proof.
  induction ranges as [| [[[first last] step] image] ranges IH];
    cbn [map_in]; [now left |].
  destruct (N.ltb_spec p first); [now left |].
  destruct (N.leb_spec p last); cbn [andb].
  - destruct (_ =? 0)%N.
    + right. exists first, last, step, image.
      repeat split; auto. now left.
    + destruct IH as [IH | (f & l & s & i & Hin & Hp & E)]; [now left |].
      right. exists f, l, s, i. repeat split; auto; try apply Hp. now right.
  - destruct IH as [IH | (f & l & s & i & Hin & Hp & E)]; [now left |].
    right. exists f, l, s, i. repeat split; auto; try apply Hp. now right.
Qed.

(** Only a letter below 128 has an upper case made of the letters of
    CONNECTED. *)
Lemma upper_point_connected (p : N) :
  Forall (fun q => In q [67; 68; 69; 78; 79; 84]%N) (upper_point p) ->
  (p < 128)%N.
Proof.
  unfold upper_point.
  destruct (special_in upper_special p) as [image |] eqn:Hs.
  - apply special_in_table in Hs. intros H. exfalso.
    assert (Hcheck :
      forallb (fun ci : N * list N =>
                 negb (forallb (fun q => existsb (N.eqb q) [67; 68; 69; 78; 79; 84]%N)
                               (snd ci)))
              upper_special = true) by (vm_compute; reflexivity).
    rewrite forallb_forall in Hcheck. specialize (Hcheck _ Hs). cbn [snd] in Hcheck.
    apply negb_true_iff in Hcheck.
    assert (forallb (fun q => existsb (N.eqb q) [67; 68; 69; 78; 79; 84]%N) image
            = true); [| congruence].
    apply forallb_forall. intros q Hq. rewrite Forall_forall in H.
    apply existsb_exists. exists q. split; [now apply H | apply N.eqb_refl].
  - intros H. apply Forall_inv in H. rename H into Hq.
    destruct (map_in_table upper_ranges p)
      as [E | (first & last & step & image & Hin & Hp & E)].
    + rewrite E in Hq. cbn in Hq. lia.
    + assert (Hcheck :
        forallb (fun r : N * N * N * N =>
                   let '(first, last, _, image) := r in
                   ((last <? 128)
                    || forallb (fun q => (q <? image) || (image + (last - first) <? q))
                               [67; 68; 69; 78; 79; 84])%N%bool)
                upper_ranges = true) by (vm_compute; reflexivity).
      rewrite forallb_forall in Hcheck. specialize (Hcheck _ Hin).
      cbn beta iota in Hcheck. apply orb_true_iff in Hcheck as [Hl | Hq'].
      * apply N.ltb_lt in Hl. lia.
      * exfalso. rewrite forallb_forall in Hq'. rewrite E in Hq.
        specialize (Hq' _ Hq). apply orb_true_iff in Hq' as [Hq' | Hq'];
          apply N.ltb_lt in Hq'; lia.
Qed.

Lemma upper_points_connected (ps : list N) (target : list N) :
  Forall (fun q => In q [67; 68; 69; 78; 79; 84]%N) target ->
  flat_map upper_point ps = target ->
  Forall (fun p => (p < 128)%N) ps.
Proof.
  revert target. induction ps as [| p ps IH]; intros target Ht E; [constructor |].
  cbn [flat_map] in E. subst target. apply Forall_app in Ht as [Hp Hps].
  constructor; [now apply upper_point_connected | now apply (IH _ Hps)].
Qed.

Lemma N_of_ascii_of_N (n : N) : (n < 256)%N -> N_of_ascii (ascii_of_N n) = n.
Proof. intros H. now apply N_ascii_embedding. Qed.

(** The bytes of a code point from 128 on start with a byte from 128 on. *)
Lemma point_bytes_big (p : N) :
  (128 <= p)%N ->
  exists b rest, point_bytes p = b :: rest /\ (128 <= N_of_ascii b)%N.
Proof.
  intros Hp. unfold point_bytes.
  assert (Hunit : forall u, (128 <= u < 65536)%N ->
            exists b rest, unit_bytes u = b :: rest /\ (128 <= N_of_ascii b)%N).
  { intros u Hu. unfold unit_bytes.
    replace (u <? 128)%N with false by (symmetry; apply N.ltb_ge; lia).
    rewrite !N.shiftr_div_pow2.
    change (2 ^ 6)%N with 64%N. change (2 ^ 12)%N with 4096%N.
    destruct (N.ltb_spec u 2048).
    - eexists _, _. split; [reflexivity |].
      assert (u / 64 < 32)%N by (apply N.Div0.div_lt_upper_bound; lia).
      generalize dependent (u / 64)%N. intros x Hx.
      rewrite N_of_ascii_of_N; lia.
    - eexists _, _. split; [reflexivity |].
      assert (u / 4096 < 16)%N by (apply N.Div0.div_lt_upper_bound; lia).
      generalize dependent (u / 4096)%N. intros x Hx.
      rewrite N_of_ascii_of_N; lia. }
  destruct (N.leb_spec 1114112 p).
  - eexists _, _. split; [reflexivity |].
    assert ((p - 1114112) mod 128 < 128)%N by (apply N.mod_lt; lia).
    generalize dependent ((p - 1114112) mod 128)%N. intros x Hx.
    rewrite N_of_ascii_of_N; lia.
  - destruct (N.ltb_spec p 65536); [apply Hunit; lia |].
    destruct (Hunit (55296 + (p - 65536) / 1024)%N) as (b & rest & E & Hb).
    + assert ((p - 65536) / 1024 < 1024)%N
        by (apply N.Div0.div_lt_upper_bound; lia).
      generalize dependent ((p - 65536) / 1024)%N. intros x Hx. lia.
    + rewrite E. eexists _, _. split; [reflexivity | exact Hb].
Qed.

Lemma point_bytes_small (p : N) :
  (p < 128)%N -> point_bytes p = [ascii_of_N p].
Proof.
  intros Hp. unfold point_bytes, unit_bytes.
  replace (1114112 <=? p)%N with false by (symmetry; apply N.leb_gt; lia).
  replace (p <? 65536)%N with true by (symmetry; apply N.ltb_lt; lia).
  now replace (p <? 128)%N with true by (symmetry; apply N.ltb_lt; lia).
Qed.

Lemma of_code_points_small_inv (ps : list N) :
  ascii_text (of_code_points ps) = true ->
  ps = map N_of_ascii (list_ascii_of_string (of_code_points ps)).
Proof.
  unfold of_code_points. induction ps as [| p ps IH]; cbn [flat_map]; intros H;
    [reflexivity |].
  destruct (N.ltb_spec p 128) as [Hp | Hp].
  - rewrite (point_bytes_small p Hp) in *.
    cbn [app string_of_list_ascii ascii_text list_ascii_of_string map] in *.
    apply andb_true_iff in H as [_ H].
    rewrite N_of_ascii_of_N by lia. f_equal. now apply IH.
  - exfalso. destruct (point_bytes_big p Hp) as (b & rest & E & Hb).
    rewrite E in H. cbn [app string_of_list_ascii ascii_text] in H.
    apply andb_true_iff in H as [H _]. apply N.ltb_lt in H. lia.
Qed.

(** A text whose upper case is CONNECTED is made of characters below 128. *)
Lemma toUpperCase_connected (s : string) :
  toUpperCase s = "CONNECTED" -> ascii_text s = true.
Proof.
  intros H.
  assert (E : flat_map upper_point (code_points s)
              = [67; 79; 78; 78; 69; 67; 84; 69; 68]%N).
  { rewrite (of_code_points_small_inv (flat_map upper_point (code_points s)));
      fold (toUpperCase s); now rewrite H. }
  assert (Hpoints : Forall (fun p => (p < 128)%N) (code_points s)).
  { apply (upper_points_connected (code_points s)
             [67; 79; 78; 78; 69; 67; 84; 69; 68]%N); [| exact E].
    repeat (apply Forall_cons; [cbn; tauto |]). apply Forall_nil. }
  unfold code_points in Hpoints.
  apply pair_up_small_inv in Hpoints as [_ Hunits]; [| discriminate].
  now apply decode_small_inv in Hunits as [_ ?].
Qed.

(** The comparison of ServerManagement with CONNECTED holds exactly for
    the letter-case variants of CONNECTED. *)
Lemma toUpperCase_connected_iff (s : string) :
  toUpperCase s = "CONNECTED" <-> case_variant s "CONNECTED".
Proof.
  split.
  - intros H. pose proof (toUpperCase_connected s H) as Ha.
    rewrite (toUpperCase_ascii s Ha) in H.
    apply case_variant_ascii_upper. now rewrite H.
  - intros H. now rewrite (case_variant_toUpperCase _ _ H).
Qed.

Lemma upper_is_spec (s : option string) :
  upper_is s "CONNECTED" = true
  <-> exists x, s = Some x /\ case_variant x "CONNECTED".
Proof.
  destruct s as [x |]; simpl.
  - rewrite String.eqb_eq, toUpperCase_connected_iff. split.
    + intros H. now exists x.
    + now intros (y & [= <-] & Hv).
  - split; [discriminate | intros (y & [=] & _)].
Qed.

Lemma prefix_split (p s : string) :
  String.prefix p s = true <-> exists post, s = (p ++ post)%string.
Proof.
  revert s. induction p as [| a p IH]; intros s.
  - destruct s; simpl; split; eauto.
  - destruct s as [| b s]; simpl.
    + split; [discriminate | intros (post & [=])].
    + destruct (ascii_dec a b) as [<- | Hne].
      * rewrite IH. split; intros (post & E); exists post.
        -- now rewrite E.
        -- now injection E.
      * split; [discriminate |]. intros (post & [= E _]). congruence.
Qed.

Lemma includes_split (s sub : string) :
  includes s sub = true <->
  exists pre post, s = (pre ++ sub ++ post)%string.
Proof.
  induction s as [| c s IH]; cbn [includes].
  - rewrite prefix_split. split.
    + intros (post & E). exists EmptyString, post. exact E.
    + intros (pre & post & E). destruct pre; [| discriminate].
      exists post. exact E.
  - rewrite orb_true_iff, prefix_split, IH. split.
    + intros [(post & E) | (pre & post & E)].
      * exists EmptyString, post. exact E.
      * exists (String c pre), post. simpl. now rewrite E.
    + intros (pre & post & E). destruct pre as [| c' pre]; simpl in E.
      * left. exists post. exact E.
      * right. injection E as _ E. eauto.
Qed.

Lemma ascii_lower_app (a b : string) :
  ascii_lower (a ++ b) = (ascii_lower a ++ ascii_lower b)%string.
Proof. induction a; simpl; congruence. Qed.

(** A split of the lowered text is the lowering of a split. *)
Lemma ascii_lower_split (s a b : string) :
  ascii_lower s = (a ++ b)%string ->
  exists s1 s2, s = (s1 ++ s2)%string
                /\ ascii_lower s1 = a /\ ascii_lower s2 = b.
Proof.
  revert s. induction a as [| x a IH]; intros s E; simpl in E.
  - exists EmptyString, s. auto.
  - destruct s as [| c s]; [discriminate |]. simpl in E.
    injection E as Ec Es. destruct (IH _ Es) as (s1 & s2 & -> & H1 & H2).
    exists (String c s1), s2. simpl. repeat split; congruence.
Qed.

Lemma includes_ascii_lowered (s q : string) :
  includes (ascii_lower s) (ascii_lower q) = true <->
  contains_ignoring_case s q.
Proof.
  rewrite includes_split. split.
  - intros (pre & post & E).
    apply ascii_lower_split in E as (s1 & r & -> & _ & E).
    apply ascii_lower_split in E as (mid & s3 & -> & E & _).
    exists s1, mid, s3. split; [reflexivity |].
    now apply case_variant_ascii_lower.
  - intros (pre & mid & post & -> & Hv).
    exists (ascii_lower pre), (ascii_lower post).
    apply case_variant_ascii_lower in Hv.
    now rewrite !ascii_lower_app, Hv.
Qed.

(** On texts of characters below 128, the test the filter runs is
    containment up to letter case. *)
Lemma includes_lowered (s q : string) :
  ascii_text s = true -> ascii_text q = true ->
  includes (toLowerCase s) (toLowerCase q) = true <->
  contains_ignoring_case s q.
Proof.
  intros Hs Hq. rewrite (toLowerCase_ascii s Hs), (toLowerCase_ascii q Hq).
  apply includes_ascii_lowered.
Qed.

Lemma ascii_text_app (a b : string) :
  ascii_text (a ++ b) = (ascii_text a && ascii_text b)%bool.
Proof. induction a; simpl; [reflexivity |]. now rewrite IHa, andb_assoc. Qed.

(** ** The length of a text *)

Lemma decode_step_progress (st : partial) (b : N) :
  snd (decode_step st b) <> [] \/ fst (decode_step st b) <> Whole.
Proof.
  unfold decode_step.
  destruct (b <? 128)%N.
  { left. cbn [snd]. destruct (strays st); discriminate. }
  destruct (b <? 192)%N.
  { destruct st as [| b1 | b1 | b1 b2].
    - left. discriminate.
    - left. destruct (_ <? 128)%N; discriminate.
    - right. discriminate.
    - left. destruct (_ <? 2048)%N; discriminate. }
  destruct (b <? 224)%N; [right; discriminate |].
  destruct (b <? 240)%N; [right; discriminate |].
  left. cbn [snd]. destruct (strays st); discriminate.
Qed.

Lemma decode_nonempty (s : string) (st : partial) :
  st <> Whole \/ s <> EmptyString -> decode st s <> [].
Proof.
  revert st. induction s as [| c s IH]; intros st H.
  - destruct H as [H | H]; [| now elim H].
    destruct st; [now elim H | discriminate ..].
  - cbn [decode]. pose proof (decode_step_progress st (N_of_ascii c)) as P.
    destruct (decode_step st (N_of_ascii c)) as [st' units]. cbn [fst snd] in P.
    destruct P as [P | P].
    + destruct units; [now elim P | discriminate].
    + intros E. apply app_eq_nil in E as [_ E]. revert E. apply IH. now left.
Qed.

(** Only the empty text has no code unit. *)
Lemma string_length_none (s : string) :
  Nat.ltb (string_length s) 1 = true <-> s = EmptyString.
Proof.
  unfold string_length. split.
  - intros H. destruct s as [| c s]; [reflexivity |].
    pose proof (decode_nonempty (String c s) Whole) as N.
    destruct (decode Whole (String c s)); [| discriminate].
    elim N; [right; discriminate | reflexivity].
  - intros ->. reflexivity.
Qed.

(** ** JSON: the model on sample texts *)

Section JsonSamples.

Import Examples.

Example parse_nested :
  JSON_parse (" [1, -2.50e3, true, null, {" ++ quoted "a" ++ " : [ ] , "
              ++ quoted "b" ++ ":{}}] ")
  = Normal (VArr [VNum 1 0; VNum (-250) 1; VBool true; VNull;
                  VObj [("a", VArr []); ("b", VObj [])]]).
Proof. reflexivity. Qed.

Example parse_escapes :
  JSON_parse (quoted "a\nA\/")
  = Normal (VStr (String "a" (String (ascii_of_nat 10) "A/"))).
Proof. reflexivity. Qed.

Example parse_repeated_key :
  JSON_parse ("{" ++ quoted "a" ++ ":1," ++ quoted "b" ++ ":2,"
              ++ quoted "a" ++ ":3}")
  = Normal (VObj [("a", VNum 3 0); ("b", VNum 2 0)]).
Proof. reflexivity. Qed.

Example parse_rejects :
  forall text,
    In text ["01"; "1."; "-"; ".5"; "+1"; "1e"; "[1,]"; "{,}"; "[1 2]"; "nul";
             "[]]"; "[[]"; "  "; "truefalse"; "{a:1}"; "'a'"; bad_schema_text] ->
    exists e, JSON_parse text = Throw e.
Proof.
  intros text Hin. simpl in Hin.
  repeat (destruct Hin as [<- | Hin]; [eexists; reflexivity |]).
  contradiction.
Qed.

Example stringify_then_parse :
  let v := VObj [("command", VStr "python");
                 ("args", VArr [VStr "-m"; VStr "my_module"]);
                 ("retries", VNum 3 0); ("ratio", VNum 15 (-1));
                 ("quiet", VBool false); ("env", VNull)] in
  JSON_parse (JSON_stringify v) = Normal v.
Proof. reflexivity. Qed.

(** A number is the double nearest to what the text says: too small a
    number is zero, a number with more digits than a double holds is
    written back with the digits of the double, too large a number is
    infinite and written [null]. *)
Example numbers_are_doubles :
  JSON_parse "1e-400" = Normal (VNum 1 (-400))
  /\ truthy (VNum 1 (-400)) = false
  /\ truthy (VNum 5 (-324)) = true
  /\ JSON_stringify (VNum 1 (-400)) = "0"
  /\ JSON_stringify (VNum 100000000000000000001 (-20)) = "1"
  /\ JSON_stringify (VNum 9007199254740993 0) = "9007199254740992"
  /\ JSON_stringify (VNum 30000000000000004 (-17)) = "0.30000000000000004"
  /\ JSON_stringify (VNum (-25) 20) = "-2.5e+21"
  /\ JSON_stringify (VNum 1 400) = "null".
Proof. vm_compute. repeat split. Qed.

(** The properties whose key is an array index are written first, by
    index; the others follow in the order they were created. *)
Example stringify_orders_keys :
  JSON_stringify (VObj [("b", VNum 1 0); ("10", VNum 2 0); ("2", VNum 3 0);
                        ("01", VNum 4 0); ("x", VUndefined); ("0", VNull)])
  = "{" ++ quoted "0" ++ ":null," ++ quoted "2" ++ ":3," ++ quoted "10"
    ++ ":2," ++ quoted "b" ++ ":1," ++ quoted "01" ++ ":4}"
  /\ JSON_stringify_gap "  " EmptyString
       (VObj [("b", VArr [VNum 1 0; VObj []]); ("1", VArr [])])
     = "{" ++ newline ++ "  " ++ quoted "1" ++ ": []," ++ newline
       ++ "  " ++ quoted "b" ++ ": [" ++ newline
       ++ "    1," ++ newline ++ "    {}" ++ newline ++ "  ]" ++ newline ++ "}".
Proof. vm_compute. split; reflexivity. Qed.

End JsonSamples.

(** ** ToolsExplorer: the filter *)

Section Filter.

Import ToolsExplorer.

Lemma keeps_tool (searchTerm : string) (filterStatus : FilterStatus)
  (tool : McpTool.t) :
  keeps searchTerm filterStatus (McpTool.to_value tool)
  = Normal (selects searchTerm filterStatus tool).
Proof.
  unfold keeps, matchesSearch, selects. simpl.
  destruct (includes (toLowerCase (McpTool.name tool)) (toLowerCase searchTerm));
    reflexivity.
Qed.

Lemma filteredTools_tools (tools : list McpTool.t) (searchTerm : string)
  (filterStatus : FilterStatus) :
  filteredTools (map McpTool.to_value tools) searchTerm filterStatus
  = Normal (map McpTool.to_value (filter (selects searchTerm filterStatus) tools)).
Proof.
  unfold filteredTools. induction tools as [| tool tools IH]; simpl.
  - reflexivity.
  - rewrite keeps_tool. simpl. rewrite IH. simpl.
    destruct (selects searchTerm filterStatus tool); reflexivity.
Qed.

Lemma matchesFilter_spec (filterStatus : FilterStatus) :
  matchesFilter filterStatus = true <->
  filterStatus = all \/ filterStatus = available.
Proof.
  destruct filterStatus; simpl; split; intros H; auto;
    try discriminate; destruct H; discriminate.
Qed.

Lemma selects_lowered (searchTerm : string) (filterStatus : FilterStatus)
  (tool : McpTool.t) :
  selects searchTerm filterStatus tool = true <->
  (includes (toLowerCase (McpTool.name tool)) (toLowerCase searchTerm) = true
   \/ includes (toLowerCase (McpTool.description tool))
               (toLowerCase searchTerm) = true)
  /\ (filterStatus = all \/ filterStatus = available).
Proof.
  unfold selects.
  now rewrite andb_true_iff, orb_true_iff, matchesFilter_spec.
Qed.

Lemma selects_included (searchTerm : string) (filterStatus : FilterStatus)
  (tool : McpTool.t) :
  ascii_text searchTerm = true ->
  ascii_text (McpTool.name tool) = true ->
  ascii_text (McpTool.description tool) = true ->
  selects searchTerm filterStatus tool = true <->
  included searchTerm filterStatus tool.
Proof.
  intros Hq Hn Hd. unfold included.
  now rewrite selects_lowered, !includes_lowered.
Qed.

End Filter.

(** ** ToolsExplorer: claims on the filter *)

Section FilterClaims.

Import ToolsExplorer Examples.

(** C9, as the code has it. A tool is in the filtered result iff the
    lower case of its name or of its description contains the lower case
    of the search text and the filter selection is [all] or [available].
    When the search text, the name and the description are made of
    characters below 128, that is: iff the name or the description
    contains the search text case-insensitively and the selection is
    [all] or [available].  For the two sample tools and the search text
    [user] the result is exactly the first tool. *)
Theorem filteredTools_included :
  (forall (tools : list McpTool.t) (searchTerm : string)
          (filterStatus : FilterStatus),
      exists kept : list McpTool.t,
        filteredTools (map McpTool.to_value tools) searchTerm filterStatus
        = Normal (map McpTool.to_value kept)
        /\ (forall tool : McpTool.t,
              In tool kept <->
              In tool tools
              /\ (includes (toLowerCase (McpTool.name tool))
                           (toLowerCase searchTerm) = true
                  \/ includes (toLowerCase (McpTool.description tool))
                              (toLowerCase searchTerm) = true)
              /\ (filterStatus = all \/ filterStatus = available))
        /\ (ascii_text searchTerm = true ->
            forall tool : McpTool.t,
              ascii_text (McpTool.name tool) = true ->
              ascii_text (McpTool.description tool) = true ->
              (In tool kept <->
               In tool tools /\ included searchTerm filterStatus tool)))
  /\ filteredTools two_tools "user" all = Normal [search_users]
  /\ filteredTools two_tools "user" available = Normal [search_users].
Proof.
  split; [| split; reflexivity].
  intros tools searchTerm filterStatus.
  exists (filter (selects searchTerm filterStatus) tools). split; [| split].
  - apply filteredTools_tools.
  - intros tool. now rewrite filter_In, selects_lowered.
  - intros Hq tool Hn Hd. now rewrite filter_In, selects_included.
Qed.

Lemma filteredTools_included_witness :
  exists kept : list McpTool.t,
    filteredTools (map McpTool.to_value typed_tools) "USER" all
    = Normal (map McpTool.to_value kept)
    /\ forall tool : McpTool.t,
        In tool typed_tools ->
        (In tool kept <-> In tool typed_tools /\ included "USER" all tool).
Proof.
  destruct (proj1 filteredTools_included typed_tools "USER" all)
    as (kept & E & _ & Hascii).
  exists kept. split; [exact E |].
  intros tool [<- | [<- | []]]; apply (Hascii eq_refl); reflexivity.
Defined.

(** C9, as the specification has it, fails on a name that ends in a
    capital sigma: the name contains the search text as it is, a capital
    sigma, and the selection is [all], yet the tool is not kept, because
    the sigma at the end of the name lower-cases to a final sigma and the
    sigma that is the whole search text to a small sigma. *)
Lemma final_sigma_is_not_found :
  toLowerCase ("a" ++ capital_sigma) = "a" ++ final_sigma
  /\ toLowerCase capital_sigma = small_sigma
  /\ included capital_sigma all sigma_tool
  /\ In sigma_tool [sigma_tool]
  /\ filteredTools [McpTool.to_value sigma_tool] capital_sigma all = Normal []
  /\ ~ (exists kept : list McpTool.t,
          filteredTools (map McpTool.to_value [sigma_tool]) capital_sigma all
          = Normal (map McpTool.to_value kept)
          /\ (In sigma_tool kept <->
              In sigma_tool [sigma_tool]
              /\ included capital_sigma all sigma_tool)).
Proof.
  assert (Hin : included capital_sigma all sigma_tool).
  { split; [left | now left].
    exists "a", capital_sigma, EmptyString. split; [reflexivity |].
    apply case_variant_refl. }
  assert (Hrun : filteredTools [McpTool.to_value sigma_tool] capital_sigma all
                 = Normal []) by (vm_compute; reflexivity).
  split; [vm_compute; reflexivity |].
  split; [vm_compute; reflexivity |].
  split; [exact Hin |].
  split; [now left |].
  split; [exact Hrun |].
  intros (kept & E & Hiff). cbn [map] in E. rewrite Hrun in E.
  injection E as E. destruct kept; [| discriminate].
  apply Hiff. split; [now left | exact Hin].
Qed.

(** C1, as the code has it. With the selection [unavailable] the filtered
    result is empty, whatever the tools and the search text; [available]
    gives what [all] gives.  The two selections agree exactly when no tool
    matches the search text. *)
Theorem unavailable_filters_everything_out :
  forall (tools : list McpTool.t) (searchTerm : string),
    let run := filteredTools (map McpTool.to_value tools) searchTerm in
    run unavailable = Normal []
    /\ run available = run all
    /\ (run unavailable = run available <-> run available = Normal []).
Proof.
  intros tools searchTerm run. subst run.
  assert (Hnone : filteredTools (map McpTool.to_value tools) searchTerm unavailable
                  = Normal []).
  { rewrite filteredTools_tools. f_equal.
    induction tools as [| tool tools IH]; simpl; [reflexivity |].
    unfold selects at 1. simpl. rewrite andb_false_r. exact IH. }
  split; [exact Hnone | split].
  - rewrite !filteredTools_tools. reflexivity.
  - rewrite Hnone. split; congruence.
Qed.

(** C1, as the specification has it, fails: with an empty search text the
    selection [available] keeps both sample tools and [unavailable] keeps
    none. *)
Lemma unavailable_differs_from_available :
  filteredTools two_tools EmptyString available = Normal two_tools
  /\ filteredTools two_tools EmptyString unavailable = Normal []
  /\ filteredTools two_tools EmptyString unavailable
     <> filteredTools two_tools EmptyString available.
Proof. repeat split; try reflexivity. discriminate. Qed.

End FilterClaims.

(** ** ToolsExplorer: tools that are no array *)

Section EmptyState.

Import ToolsExplorer Examples.

(** C10. When [server.tools] is no array the tool list is empty and the
    component renders the no-tools state, with the message chosen by the
    status, and throws nothing. *)
Theorem non_array_tools_render_empty_state :
  forall (server : McpServer.t) (st : State),
    Array_isArray (McpServer.tools server) = false ->
    tools_of server = []
    /\ render server st
       = Normal (NoToolsAvailable
                   (getNoToolsMessage (McpServer.connectionStatus server))).
Proof.
  intros server st Hno. unfold render, tools_of.
  destruct (McpServer.tools server); try discriminate; split; reflexivity.
Qed.

Lemma non_array_tools_render_empty_state_witness :
  render (server_with (Some "CONNECTED") (VObj [("name", VStr "search_users")]))
         initialState
  = Normal (NoToolsAvailable
              "This server is connected but doesn't have any tools available.").
Proof.
  exact (proj2 (non_array_tools_render_empty_state
                  (server_with (Some "CONNECTED")
                               (VObj [("name", VStr "search_users")]))
                  initialState eq_refl)).
Defined.

(** The guard matters: an array is iterated, and an item that is no
    object makes the render throw. *)
Lemma array_of_null_throws :
  exists e : value,
    render (server_with None (VArr [VNull])) initialState = Throw e.
Proof. eexists. reflexivity. Qed.

Lemma absent_and_scalar_tools_render_empty_state :
  forall (status : option string) (st : State),
    let empty := Normal (NoToolsAvailable (getNoToolsMessage status)) in
    render (server_with status VUndefined) st = empty
    /\ render (server_with status VNull) st = empty
    /\ render (server_with status (VStr "search_users")) st = empty
    /\ render (server_with status (VNum 3 0)) st = empty
    /\ render (server_with status (VArr [])) st = empty.
Proof. intros; repeat split. Qed.

End EmptyState.

(** ** ToolsExplorer: parseSchema *)

Section Schema.

Import ToolsExplorer Examples.

Lemma parseSchema_total (schema : value) :
  exists parsed : value, parseSchema schema = Normal parsed.
Proof.
  destruct schema as [| | b | m e | text | items | props | msg];
    try (eexists; reflexivity).
  unfold parseSchema. simpl.
  destruct (JSON_parse text); eexists; reflexivity.
Qed.

(** C7. [parseSchema] returns an object (an array, a plain object, an
    error object) as it is; for a string it returns what [JSON.parse]
    gives, and [null] when [JSON.parse] throws; it returns [null] for
    anything else and never throws.  The text [{"type":"object"}] gives
    the object with [type] set to [object]; the text [{bad json] makes
    [JSON.parse] throw and gives [null], and the tool's card has no
    schema section. *)
Theorem parseSchema_spec :
  (forall items, parseSchema (VArr items) = Normal (VArr items))
  /\ (forall props, parseSchema (VObj props) = Normal (VObj props))
  /\ (forall m, parseSchema (VError m) = Normal (VError m))
  /\ (forall text,
        parseSchema (VStr text)
        = Normal (match JSON_parse text with
                  | Normal parsed => parsed
                  | Throw _ => VNull
                  end))
  /\ (forall schema, exists parsed, parseSchema schema = Normal parsed)
  /\ parseSchema (VStr object_schema_text)
     = Normal (VObj [("type", VStr "object")])
  /\ (exists e, JSON_parse bad_schema_text = Throw e)
  /\ parseSchema (VStr bad_schema_text) = Normal VNull
  /\ (exists c,
        card_of initialState
                (VObj [("name", VStr "search_users");
                       ("description", VStr "Find users");
                       ("schema", VStr bad_schema_text)])
        = Normal c
        /\ card_schema c = VNull /\ card_has_schema c = false).
Proof.
  repeat split; try reflexivity.
  - intros text. unfold parseSchema. simpl.
    destruct (JSON_parse text); reflexivity.
  - apply parseSchema_total.
  - eexists. reflexivity.
  - eexists. repeat split.
Qed.

End Schema.

(** ** ServerManagement: the status comparisons *)

Section Status.

Import ServerManagement Examples.

Lemma case_variant_empty (s t : string) :
  case_variant s t -> String.eqb s EmptyString = String.eqb t EmptyString.
Proof. destruct 1; reflexivity. Qed.

Lemma upper_is_variant (s t k : string) :
  case_variant s t -> upper_is (Some s) k = upper_is (Some t) k.
Proof. intros H. apply case_variant_toUpperCase in H. simpl. now rewrite H. Qed.

(** Every comparison of the status in ServerManagement gives the same
    outcome for a status and for a letter-case variant of it. *)
Lemma ServerManagement_compares_ignoring_case (s t : string) :
  case_variant s t ->
  getStatusColor (Some s) = getStatusColor (Some t)
  /\ getStatusIcon (Some s) = getStatusIcon (Some t)
  /\ forall (server : McpServer.t) (loading : State),
      let a := McpServer.with_connectionStatus (Some s) server in
      let b := McpServer.with_connectionStatus (Some t) server in
      statusDotClass a = statusDotClass b
      /\ (forall action, isActionDisabled a loading action
                         = isActionDisabled b loading action)
      /\ primaryButton a loading = primaryButton b loading
      /\ menuActions a loading = menuActions b loading.
Proof.
  intros H. pose proof (case_variant_empty _ _ H) as He.
  pose proof (case_variant_toUpperCase _ _ H) as Hu.
  unfold getStatusColor, getStatusIcon. rewrite He, Hu.
  repeat split; intros;
    unfold statusDotClass, primaryButton, menuActions, isActionDisabled;
    simpl; rewrite Hu; reflexivity.
Qed.

(** C2, at the input where the code departs from it: ToolsExplorer tells
    [connected] from [CONNECTED] when it chooses the message of the
    no-tools state, although one is a letter-case variant of the other and
    ServerManagement treats both alike. *)
Theorem getNoToolsMessage_is_case_sensitive :
  case_variant "CONNECTED" "connected"
  /\ ToolsExplorer.getNoToolsMessage (Some "CONNECTED")
     = "This server is connected but doesn't have any tools available."
  /\ ToolsExplorer.getNoToolsMessage (Some "connected")
     = "Connect to this server to load and view available tools."
  /\ ToolsExplorer.render (server_with (Some "CONNECTED") (VArr []))
                          ToolsExplorer.initialState
     <> ToolsExplorer.render (server_with (Some "connected") (VArr []))
                             ToolsExplorer.initialState
  /\ getStatusColor (Some "CONNECTED") = getStatusColor (Some "connected")
  /\ primaryButton (server_with (Some "CONNECTED") (VArr [])) None
     = primaryButton (server_with (Some "connected") (VArr [])) None.
Proof.
  split; [apply case_variant_ascii_upper; reflexivity |].
  repeat split; try reflexivity. discriminate.
Qed.

(** C3. While an action is in flight every action control is disabled.
    With none in flight, activate is disabled iff the status, compared
    case-insensitively, is CONNECTED; deactivate is disabled iff it is
    not; restart is not disabled. *)
Theorem isActionDisabled_policy :
  forall server : McpServer.t,
    (forall (running : action) (control : string),
        isActionDisabled server (Some (action_name running)) control = true)
    /\ (isActionDisabled server None "activate" = true
        <-> status_is server "CONNECTED")
    /\ (isActionDisabled server None "deactivate" = true
        <-> ~ status_is server "CONNECTED")
    /\ isActionDisabled server None "restart" = false.
Proof.
  intros server.
  assert (Hc : upper_is (McpServer.connectionStatus server) "CONNECTED" = true
               <-> status_is server "CONNECTED")
    by apply upper_is_spec.
  repeat split.
  - destruct running; reflexivity.
  - intros H. apply Hc. exact H.
  - intros H. apply Hc. exact H.
  - unfold isActionDisabled. simpl. intros H Hs. apply Hc in Hs.
    rewrite Hs in H. discriminate.
  - unfold isActionDisabled. simpl. intros H.
    destruct (upper_is (McpServer.connectionStatus server) "CONNECTED");
      [| reflexivity].
    exfalso. apply H, Hc. reflexivity.
Qed.

End Status.

(** ** ServerManagement: handleAction *)

Section Action.

Import ServerManagement.

(** What one run of [handleAction] does, by the outcome of the
    collaborator. *)
Lemma handleAction_run (server : McpServer.t)
  (onAction : string -> action -> settlement) (a : action) (w : world State) :
  handleAction server onAction a w
  = match onAction (McpServer.name server) a with
    | Fulfilled result =>
        (Normal tt,
         mkWorld None
           (toasts w ++
            [ToastSuccess
               (match result_message result with
                | Some m => m
                | None => ("Server " ++ action_name a ++ "d successfully")%string
                end)])%list
           (console_errors w))
    | Rejected error =>
        (Normal tt,
         mkWorld None
           (toasts w ++
            [ToastError
               (error_message error ("Failed to " ++ action_name a ++ " server")%string)])%list
           (console_errors w ++ [(("Failed to " ++ action_name a ++ " server:")%string, error)])%list)
    end.
Proof.
  unfold handleAction, try_finally. simpl.
  destruct (onAction (McpServer.name server) a); reflexivity.
Qed.

(** C4. Whatever the collaborator's outcome, [handleAction] ends with the
    in-flight marker cleared and throws nothing.  When the collaborator
    rejects with [Error("timeout")] the failure notification is [timeout],
    the error is logged, the marker is cleared and nothing is thrown. *)
Theorem handleAction_clears_marker :
  (forall (server : McpServer.t) (onAction : string -> action -> settlement)
          (a : action) (w : world State),
      exists w' : world State,
        handleAction server onAction a w = (Normal tt, w') /\ ui w' = None)
  /\ (forall (server : McpServer.t) (a : action) (w : world State),
        handleAction server (fun _ _ => Rejected (VError "timeout")) a w
        = (Normal tt,
           mkWorld None
             (toasts w ++ [ToastError "timeout"])%list
             (console_errors w
              ++ [(("Failed to " ++ action_name a ++ " server:")%string,
                   VError "timeout")])%list))
  /\ includes "timeout" "timeout" = true
  /\ (forall (server : McpServer.t) (a : action),
        isActionDisabled server (Some (action_name a)) "restart" = true
        /\ isActionDisabled server None "restart" = false).
Proof.
  split; [| split; [| split]].
  - intros server onAction a w. rewrite handleAction_run.
    destruct (onAction (McpServer.name server) a); eexists; split; reflexivity.
  - intros server a w. rewrite handleAction_run. reflexivity.
  - reflexivity.
  - intros server a. split; [destruct a |]; reflexivity.
Qed.

End Action.

(** ** ServerFormModal: validation *)

Section Validation.

Import Zod ServerFormModal Examples.

Lemma optional_string_valid (p : list segment) (o : option string) :
  issues (z_optional z_string) p (optional VStr o) = [].
Proof. destruct o; reflexivity. Qed.

Lemma optional_boolean_valid (p : list segment) (o : option bool) :
  issues (z_optional z_boolean) p (optional VBool o) = [].
Proof. destruct o; reflexivity. Qed.

Lemma flat_map_none {A B : Type} (f : A -> list B) (l : list A) :
  (forall x, In x l -> f x = []) -> flat_map f l = [].
Proof.
  induction l as [| x l IH]; intros H; simpl; [reflexivity |].
  rewrite (H x (or_introl eq_refl)), IH; [reflexivity |].
  intros y Hy. apply H. now right.
Qed.

Lemma header_rows_valid (p : list segment) (o : option (list header)) :
  issues (z_optional (z_array (z_object [("key", z_string); ("value", z_string)])))
         p (optional (fun hs => VArr (map header_value hs)) o) = [].
Proof.
  destruct o as [hs |]; [| reflexivity].
  cbn [optional issues]. apply flat_map_none. intros [i x] Hin.
  apply in_combine_r, in_map_iff in Hin as (h & <- & _). reflexivity.
Qed.

Lemma issues_object (shape : list (string * schema)) (p : list segment)
  (props : list (string * value)) :
  issues (z_object shape) p (VObj props)
  = flat_map (fun ks => issues (snd ks) (p ++ [Key (fst ks)])%list
                               (member (fst ks) props))
             shape.
Proof. reflexivity. Qed.

(** The only issues a submission can have are on [name] and [transport]. *)
Lemma validate_issues (d : ServerFormData) :
  validate d
  = ((if Nat.ltb (string_length (name d)) 1
      then [mkIssue [Key "name"] "Server name is required"] else [])
     ++ (if string_in (transport d) transport_kinds
         then []
         else [mkIssue [Key "transport"]
                       ("Invalid enum value. Expected "
                        ++ "'sse' | 'streamable_http' | 'stdio', received '"
                        ++ transport d ++ "'")%string]))%list.
Proof.
  unfold validate, serverSchema, data_value.
  rewrite issues_object. cbn [flat_map fst snd].
  change (member "name" _) with (VStr (name d)).
  change (member "description" _) with (optional VStr (description d)).
  change (member "transport" _) with (VStr (transport d)).
  change (member "url" _) with (optional VStr (url d)).
  change (member "command" _) with (optional VStr (command d)).
  change (member "args" _) with (optional VStr (args d)).
  change (member "requiresOauth" _) with (optional VBool (requiresOauth d)).
  change (member "isPublic" _) with (optional VBool (isPublic d)).
  change (member "headers" _)
    with (optional (fun hs => VArr (map header_value hs)) (headers d)).
  rewrite header_rows_valid, !optional_string_valid, !optional_boolean_valid.
  cbn [issues app]. now rewrite !app_nil_r.
Qed.

Lemma string_in_spec (s : string) (options : list string) :
  string_in s options = true <-> In s options.
Proof.
  unfold string_in. rewrite existsb_exists. split.
  - intros (x & Hin & E). apply String.eqb_eq in E. now subst.
  - intros Hin. exists s. split; [exact Hin | apply String.eqb_refl].
Qed.

(** What validation asks of a submission, all told. *)
Lemma validate_accepts_iff (d : ServerFormData) :
  validate d = [] <-> name d <> EmptyString /\ In (transport d) transport_kinds.
Proof.
  rewrite validate_issues, <- string_in_spec.
  pose proof (string_length_none (name d)) as Hlen.
  destruct (Nat.ltb (string_length (name d)) 1),
           (string_in (transport d) transport_kinds);
    simpl;
    (split; [intros E; try discriminate E | intros [Hn Ht]; try discriminate Ht]).
  - elim Hn. now apply Hlen.
  - split; [| reflexivity]. intros H. apply Hlen in H. discriminate.
  - reflexivity.
Qed.

(** C5. A submission whose transport is one of the three kinds passes
    validation iff its name is not empty: no other field is required,
    whatever the transport. *)
Theorem validation_requires_name_only :
  forall d : ServerFormData,
    In (transport d) transport_kinds ->
    (validate d = [] <-> name d <> EmptyString).
Proof.
  intros d Hk. rewrite validate_accepts_iff.
  split; [intros [H _]; exact H | intros H; split; assumption].
Qed.

(** A stdio submission with an empty command has no blocking error. *)
Lemma validation_requires_name_only_witness :
  validate stdio_without_command = [].
Proof.
  apply (proj2 (validation_requires_name_only stdio_without_command
                  (or_intror (or_intror (or_introl eq_refl))))).
  simpl. discriminate.
Defined.

(** The same for a transport other than stdio and an empty url; and the
    handler runs on such a submission. *)
Lemma sse_without_url_is_accepted :
  validate sse_without_url = []
  /\ accepts serverSchema (data_value sse_without_url) = true.
Proof. split; reflexivity. Qed.

Lemma empty_name_is_refused :
  validate defaultValues = [mkIssue [Key "name"] "Server name is required"].
Proof. reflexivity. Qed.

End Validation.

(** ** ServerFormModal: opening the dialog *)

Section Opening.

Import ServerFormModal Examples.

Lemma string_or_empty (o : option string) :
  string_or o EmptyString = match o with Some x => x | None => EmptyString end.
Proof.
  destruct o as [x |]; simpl; [| reflexivity].
  destruct (String.eqb_spec x EmptyString); congruence.
Qed.

Lemma args_text_cases :
  (forall s, args_text (VStr s) = s)
  /\ (forall items, args_text (VArr items) = JSON_stringify (VArr items))
  /\ (forall props, args_text (VObj props) = JSON_stringify (VObj props))
  /\ args_text VUndefined = EmptyString
  /\ args_text VNull = EmptyString.
Proof.
  repeat split. intros s. unfold args_text. simpl.
  destruct (String.eqb_spec s EmptyString); simpl; congruence.
Qed.

(** C6. Opened in [edit] mode on a record, the form holds the record's
    name, description, transport, url, command, flags and args (a string
    as it is, an array or an object as its JSON text, nothing as the empty
    text), an absent field being empty or unset; it holds no header row,
    whatever the record's headers.  Opened in either mode, the headers
    disclosure is collapsed.  A record with args [-m], [my_module] and an
    Authorization header opens with the args text
    [["-m","my_module"]] and no header row, also over a form that was
    left with a row and the disclosure expanded. *)
Theorem edit_prepopulates_all_but_headers :
  (forall (server : McpServer.t) (st : State),
      let st' := open edit (Some server) st in
      let v := values st' in
      name v = McpServer.name server
      /\ description v
         = Some (match McpServer.description server with
                 | Some x => x | None => EmptyString end)
      /\ transport v = McpServer.transport server
      /\ transportType st' = McpServer.transport server
      /\ url v = Some (match McpServer.url server with
                       | Some x => x | None => EmptyString end)
      /\ command v = Some (match McpServer.command server with
                           | Some x => x | None => EmptyString end)
      /\ args v = Some (args_text (McpServer.args server))
      /\ requiresOauth v
         = Some (match McpServer.requiresOauth2 server with
                 | Some b => b | None => false end)
      /\ isPublic v
         = Some (match McpServer.isPublic server with
                 | Some b => b | None => false end)
      /\ headers v = Some []
      /\ headerRows st' = []
      /\ isOpen st' = true)
  /\ ((forall s, args_text (VStr s) = s)
      /\ (forall items, args_text (VArr items) = JSON_stringify (VArr items))
      /\ (forall props, args_text (VObj props) = JSON_stringify (VObj props))
      /\ args_text VUndefined = EmptyString
      /\ args_text VNull = EmptyString)
  /\ (forall (mode : Mode) (server : option McpServer.t) (st : State),
        showHeaders (open mode server st) = false)
  /\ (let st' := open edit (Some (server_with None VNull)) edited_form in
      McpServer.headers (server_with None VNull)
      = VObj [("Authorization", VStr "Bearer token123")]
      /\ headerRows edited_form
         = [mkHeader "Authorization" "Bearer token123"]
      /\ showHeaders edited_form = true
      /\ headerRows st' = []
      /\ showHeaders st' = false
      /\ args (values st')
         = Some ("[" ++ quoted "-m" ++ "," ++ quoted "my_module" ++ "]")).
Proof.
  split; [| split; [exact args_text_cases | split]].
  - intros server st. cbn.
    rewrite !string_or_empty. repeat split.
  - intros mode [server |] st; destruct mode; reflexivity.
  - cbv zeta. repeat split.
Qed.

(** In [add] mode, and in [edit] mode with no record, the form opens on
    the empty defaults. *)
Lemma add_opens_on_defaults (mode : Mode) (server : option McpServer.t)
  (st : State) :
  mode = add \/ server = None ->
  values (open mode server st) = defaultValues
  /\ transportType (open mode server st) = "sse".
Proof. intros [-> | ->]; [| destruct mode]; split; reflexivity. Qed.

End Opening.

(** ** ServerFormModal: submission *)

Section Submission.

Import ServerFormModal Examples.

(** C8. When the submit collaborator resolves, the dialog is closed and a
    success notification says [added] in [add] mode and [updated] in
    [edit] mode; when it rejects, the component's state is as it was (the
    dialog as open as before, the values as entered), the error is logged
    and the failure notification is the generic one.  Either way the
    form's values are the ones entered and nothing is thrown. *)
Theorem handleFormSubmit_outcomes :
  forall (mode : Mode) (onSubmit : ServerFormData -> settlement)
         (data : ServerFormData) (w : world State),
  exists w' : world State,
    handleFormSubmit mode onSubmit data w = (Normal tt, w')
    /\ values (ui w') = values (ui w)
    /\ match onSubmit data with
       | Fulfilled _ =>
           isOpen (ui w') = false
           /\ toasts w'
              = (toasts w ++
                 [ToastSuccess (match mode with
                                | add => "Server added successfully"
                                | edit => "Server updated successfully"
                                end)])%list
           /\ console_errors w' = console_errors w
       | Rejected error =>
           ui w' = ui w
           /\ toasts w'
              = (toasts w ++
                 [ToastError (match mode with
                              | add => "Failed to add server"
                              | edit => "Failed to update server"
                              end)])%list
           /\ console_errors w'
              = (console_errors w ++ [("Form submission error:", error)])%list
       end.
Proof.
  intros mode onSubmit data w. unfold handleFormSubmit. simpl.
  destruct (onSubmit data); eexists; (split; [reflexivity |]);
    destruct mode, w; simpl; repeat split.
Qed.

(** A stdio submission with no command reaches the collaborator; if that
    one rejects, the form is as the user left it. *)
Lemma rejected_submission_keeps_the_form :
  forall (mode : Mode) (reason : value),
    let filled :=
      mkWorld (mkState stdio_without_command [] true "stdio" true) [] [] in
    exists w',
      submit mode (fun _ => Rejected reason) filled = (Normal tt, w')
      /\ ui w' = ui filled
      /\ console_errors w' = [("Form submission error:", reason)].
Proof.
  intros mode reason. eexists. split; [| split].
  - destruct mode; reflexivity.
  - reflexivity.
  - reflexivity.
Qed.

(** A submission with an empty name does not reach the collaborator. *)
Lemma empty_name_blocks_submission :
  forall (mode : Mode) (onSubmit : ServerFormData -> settlement),
    submit mode onSubmit (mkWorld (open add None initialState) [] [])
    = (Normal tt,
       mkWorld (mkState defaultValues
                        [Zod.mkIssue [Zod.Key "name"] "Server name is required"]
                        false "sse" true) [] []).
Proof. reflexivity. Qed.

End Submission.

(** ** ToolsExplorer: more on the filter *)

Section FilterMore.

Import ToolsExplorer ToolsExplorerControls Examples.

Lemma includes_empty (s : string) : includes s EmptyString = true.
Proof. apply includes_split. exists EmptyString, s. reflexivity. Qed.

Lemma string_app_assoc (a b c : string) :
  ((a ++ b) ++ c = a ++ (b ++ c))%string.
Proof. induction a; simpl; congruence. Qed.

Lemma includes_app (s a b : string) :
  includes s (a ++ b) = true -> includes s a = true /\ includes s b = true.
Proof.
  rewrite !includes_split. intros (pre & post & ->). split.
  - exists pre, (b ++ post)%string. now rewrite string_app_assoc.
  - exists (pre ++ a)%string, post. now rewrite !string_app_assoc.
Qed.

Lemma filter_all (A : Type) (f : A -> bool) (l : list A) :
  (forall x, f x = true) -> filter f l = l.
Proof.
  intros H. induction l as [| x l IH]; simpl; [reflexivity |].
  now rewrite H, IH.
Qed.

(** X1. With an empty search text the selections [all] and [available]
    keep every tool, in the order the server lists them. *)
Theorem empty_search_keeps_every_tool :
  forall tools : list McpTool.t,
    filteredTools (map McpTool.to_value tools) EmptyString all
    = Normal (map McpTool.to_value tools)
    /\ filteredTools (map McpTool.to_value tools) EmptyString available
       = Normal (map McpTool.to_value tools).
Proof.
  intros tools. rewrite !filteredTools_tools.
  split; (rewrite filter_all; [reflexivity |]); intros tool;
    unfold selects; simpl; now rewrite includes_empty.
Qed.

Lemma selects_app (a b : string) (f : FilterStatus) (tool : McpTool.t) :
  ascii_text a = true -> ascii_text b = true ->
  selects (a ++ b) f tool = true ->
  selects a f tool = true /\ selects b f tool = true.
Proof.
  intros Ha Hb. unfold selects.
  rewrite (toLowerCase_ascii (a ++ b)) by now rewrite ascii_text_app, Ha, Hb.
  rewrite (toLowerCase_ascii a Ha), (toLowerCase_ascii b Hb), ascii_lower_app.
  rewrite !andb_true_iff, !orb_true_iff.
  intros [[H | H] Hf]; apply includes_app in H as [H1 H2]; auto.
Qed.

(** X2. For a search text made of characters below 128, typing more never
    brings a tool back: every tool kept for the search text [a ++ b] is
    kept for [a] and is kept for [b], whatever the names and the
    descriptions of the tools are. *)
Theorem longer_search_keeps_fewer :
  forall (tools : list McpTool.t) (a b : string) (f : FilterStatus),
    ascii_text a = true ->
    ascii_text b = true ->
    exists kept kept_a kept_b : list McpTool.t,
      filteredTools (map McpTool.to_value tools) (a ++ b) f
      = Normal (map McpTool.to_value kept)
      /\ filteredTools (map McpTool.to_value tools) a f
         = Normal (map McpTool.to_value kept_a)
      /\ filteredTools (map McpTool.to_value tools) b f
         = Normal (map McpTool.to_value kept_b)
      /\ incl kept kept_a /\ incl kept kept_b.
Proof.
  intros tools a b f Ha Hb.
  exists (filter (selects (a ++ b) f) tools), (filter (selects a f) tools),
         (filter (selects b f) tools).
  rewrite !filteredTools_tools.
  split; [reflexivity |]. split; [reflexivity |]. split; [reflexivity |].
  split; intros tool Hin; apply filter_In in Hin as [Hin Hs];
    apply (selects_app a b f tool Ha Hb) in Hs as [H1 H2];
    apply filter_In; auto.
Qed.

Lemma longer_search_keeps_fewer_witness :
  exists kept kept_a kept_b : list McpTool.t,
    filteredTools (map McpTool.to_value (sigma_tool :: typed_tools))
                  ("US" ++ "er") all
    = Normal (map McpTool.to_value kept)
    /\ filteredTools (map McpTool.to_value (sigma_tool :: typed_tools))
                     "US" all
       = Normal (map McpTool.to_value kept_a)
    /\ filteredTools (map McpTool.to_value (sigma_tool :: typed_tools))
                     "er" all
       = Normal (map McpTool.to_value kept_b)
    /\ incl kept kept_a /\ incl kept kept_b.
Proof.
  exact (longer_search_keeps_fewer (sigma_tool :: typed_tools) "US" "er" all
           eq_refl eq_refl).
Defined.

Lemma filterM_kept {A : Type} (f : A -> completion bool) (xs kept : list A) :
  filterM f xs = Normal kept ->
  filterM f kept = Normal kept
  /\ List.length kept <= List.length xs
  /\ incl kept xs.
Proof.
  revert kept. induction xs as [| x xs IH]; intros kept H; simpl in H.
  - injection H as <-. repeat split; [apply Nat.le_refl | apply incl_refl].
  - destruct (f x) as [keep | e] eqn:Ex; [| discriminate].
    destruct (filterM f xs) as [rest | e] eqn:Er; [| discriminate].
    destruct (IH rest eq_refl) as (Hagain & Hlen & Hincl).
    injection H as <-. destruct keep.
    + simpl. rewrite Ex, Hagain. repeat split.
      * simpl. now apply le_n_S.
      * intros y [<- | Hy]; [now left | right; auto].
    + repeat split; [exact Hagain | simpl; now apply Nat.le_le_succ_r |].
      intros y Hy. right. auto.
Qed.

(** X3. Whatever the items of the list are, a filtered result that was
    computed without an exception is a fixed point of the filter (filtering
    it again with the same search text and selection changes nothing), has
    at most as many items as the list, and holds items of the list only. *)
Theorem filteredTools_is_stable :
  forall (tools kept : list value) (searchTerm : string) (f : FilterStatus),
    filteredTools tools searchTerm f = Normal kept ->
    filteredTools kept searchTerm f = Normal kept
    /\ List.length kept <= List.length tools
    /\ incl kept tools.
Proof. intros tools kept searchTerm f. apply filterM_kept. Qed.

Lemma filteredTools_is_stable_witness :
  filteredTools [search_users] "user" all = Normal [search_users]
  /\ List.length [search_users] <= List.length two_tools
  /\ incl [search_users] two_tools.
Proof.
  exact (filteredTools_is_stable two_tools [search_users] "user" all eq_refl).
Defined.

(** X4. A tool object without a description is kept when its name
    contains the search text (the description is not read then).  When
    the name does not contain it, reading the description's lower case
    throws a [TypeError], whatever the filter selection, and the whole
    render throws it, whatever else the array holds behind that tool. *)
Theorem tool_without_description :
  forall (name : string) (st : State) (status : option string)
         (others : list value),
    let oops :=
      TypeError "Cannot read properties of undefined (reading 'toLowerCase')" in
    includes (toLowerCase name) (toLowerCase (searchTerm st)) = false ->
    (forall q f,
        keeps q f (undescribed name)
        = if includes (toLowerCase name) (toLowerCase q)
          then Normal (matchesFilter f) else Throw oops)
    /\ render (server_with status (VArr (undescribed name :: others))) st
       = Throw oops.
Proof.
  intros name st status others oops H. split.
  - intros q f. unfold keeps, matchesSearch. simpl.
    destruct (includes (toLowerCase name) (toLowerCase q)); reflexivity.
  - unfold render, filteredTools, tools_of. simpl.
    unfold keeps, matchesSearch. simpl. now rewrite H.
Qed.

Lemma tool_without_description_witness :
  render (server_with None (VArr [undescribed "create_ticket"; search_users]))
         (setSearchTerm "user" initialState)
  = Throw (TypeError "Cannot read properties of undefined (reading 'toLowerCase')").
Proof.
  exact (proj2 (tool_without_description "create_ticket"
                  (setSearchTerm "user" initialState) None [search_users]
                  eq_refl)).
Defined.

End FilterMore.

(** ** ToolsExplorer: the explorer view *)

Section ExplorerView.

Import ToolsExplorer ToolsExplorerControls Examples.

(** The card of a tool of the declared type. *)
Lemma card_of_tool (st : State) (tool : McpTool.t) :
  exists parsed : value,
    parseSchema (McpTool.schema tool) = Normal parsed
    /\ card_of st (McpTool.to_value tool)
       = Normal (mkCard (McpTool.name tool) (VStr (McpTool.description tool))
                        (getToolCategory (McpTool.name tool))
                        (getCategoryColor (getToolCategory (McpTool.name tool)))
                        parsed (truthy parsed)
                        (match expandedTool st with
                         | Some open => String.eqb open (McpTool.name tool)
                         | None => false
                         end)
                        (if match viewMode st with
                            | grid =>
                                (truthy parsed
                                 && match expandedTool st with
                                    | Some open =>
                                        String.eqb open (McpTool.name tool)
                                    | None => false
                                    end)%bool
                            | list_ =>
                                match expandedTool st with
                                | Some open => String.eqb open (McpTool.name tool)
                                | None => false
                                end
                            end
                         then Some (JSON_stringify_gap "  " EmptyString parsed)
                         else None)
                        (guard_text parsed)).
Proof.
  destruct (parseSchema_total (McpTool.schema tool)) as (parsed & E).
  exists parsed. split; [exact E |].
  unfold card_of. simpl. rewrite E. reflexivity.
Qed.

Lemma guard_text_zero (v : value) :
  guard_text v
  = match v with
    | VNum _ _ => if truthy v then None else Some "0"
    | _ => None
    end.
Proof.
  destruct v as [| | b | m e | s | items | props | msg]; try reflexivity.
  unfold guard_text, truthy, number_to_string.
  destruct (magnitude m e); reflexivity.
Qed.

Lemma mapM_tools (st : State) (R : McpTool.t -> card -> Prop)
  (tools : list McpTool.t) :
  (forall tool, exists c,
      card_of st (McpTool.to_value tool) = Normal c /\ R tool c) ->
  exists cards,
    mapM (card_of st) (map McpTool.to_value tools) = Normal cards
    /\ Forall2 R tools cards.
Proof.
  intros H. induction tools as [| tool tools (cards & E & F)].
  - exists []. split; [reflexivity | constructor].
  - destruct (H tool) as (c & Ec & Rc).
    exists (c :: cards). cbn [map mapM]. rewrite Ec. simpl. rewrite E.
    split; [reflexivity | now constructor].
Qed.

Lemma filter_length_le {A : Type} (f : A -> bool) (l : list A) :
  List.length (filter f l) <= List.length l.
Proof.
  induction l as [| x l IH]; simpl; [apply Nat.le_refl |].
  destruct (f x); simpl; [now apply le_n_S | now apply Nat.le_le_succ_r].
Qed.

(** X5. For a non-empty list of well-formed tools the render throws
    nothing and shows the explorer in the view mode of the state: one card
    per kept tool, in the order of the list; the counts are the number of
    cards and the number of tools.  Each card has the name, the
    description and the category of its tool and the parsed schema; the
    schema section is there when the parsed schema is truthy.  The schema
    panel is where the two modes differ: the grid shows it for the
    expanded tool when there is a schema section, the list shows it for
    the expanded tool also when there is none (with the text of [null]);
    the panel holds the parsed schema, indented by two spaces.  A schema
    text that reads as the number zero leaves [0] in the card, in both
    modes, and nothing else does. *)
Theorem render_well_formed_tools :
  forall (server : McpServer.t) (tools : list McpTool.t) (st : State),
    McpServer.tools server = VArr (map McpTool.to_value tools) ->
    tools <> [] ->
    exists cards : list card,
      render server st
      = Normal (Explorer (viewMode st) (List.length cards) (List.length tools)
                         cards (Nat.eqb (List.length cards) 0))
      /\ Forall2
           (fun (tool : McpTool.t) (c : card) =>
              card_name c = McpTool.name tool
              /\ card_description c = VStr (McpTool.description tool)
              /\ card_category c = getToolCategory (McpTool.name tool)
              /\ card_badge c = getCategoryColor (card_category c)
              /\ parseSchema (McpTool.schema tool) = Normal (card_schema c)
              /\ card_has_schema c = truthy (card_schema c)
              /\ card_expanded c
                 = match expandedTool st with
                   | Some open => String.eqb open (McpTool.name tool)
                   | None => false
                   end
              /\ card_panel c
                 = (if match viewMode st with
                       | grid => (card_has_schema c && card_expanded c)%bool
                       | list_ => card_expanded c
                       end
                    then Some (JSON_stringify_gap "  " EmptyString (card_schema c))
                    else None)
              /\ card_guard_text c
                 = match card_schema c with
                   | VNum _ _ => if card_has_schema c then None else Some "0"
                   | _ => None
                   end)
           (filter (selects (searchTerm st) (filterStatus st)) tools) cards
      /\ List.length cards <= List.length tools.
Proof.
  intros server tools st Htools Hne.
  set (kept := filter (selects (searchTerm st) (filterStatus st)) tools).
  match goal with
  | |- exists cards, _ /\ Forall2 ?R _ _ /\ _ =>
      destruct (mapM_tools st R kept) as (cards & Ecards & Hcards)
  end.
  { intros tool. destruct (card_of_tool st tool) as (parsed & Ep & Ec).
    eexists. split; [exact Ec |]. simpl.
    split; [reflexivity |]. split; [reflexivity |]. split; [reflexivity |].
    split; [reflexivity |]. split; [exact Ep |]. split; [reflexivity |].
    split; [reflexivity |]. split; [reflexivity |].
    apply guard_text_zero. }
  assert (Hlen : List.length cards = List.length kept)
    by (symmetry; exact (Forall2_length Hcards)).
  exists cards. split; [| split].
  - unfold render, tools_of. rewrite Htools. simpl.
    rewrite filteredTools_tools. simpl. fold kept.
    rewrite length_map.
    destruct tools as [| tool tools]; [contradiction |]. simpl.
    rewrite Ecards. simpl. now rewrite length_map, Hlen.
  - exact Hcards.
  - rewrite Hlen. apply filter_length_le.
Qed.

Lemma render_well_formed_tools_witness :
  exists cards : list card,
    render (server_with None (VArr (map McpTool.to_value typed_tools)))
           (mkState EmptyString list_ (Some "create_ticket") all)
    = Normal (Explorer list_ (List.length cards) 2 cards
                       (Nat.eqb (List.length cards) 0))
    /\ map card_has_schema cards = [true; false]
    /\ map card_panel cards = [None; Some "null"].
Proof.
  destruct (render_well_formed_tools
              (server_with None (VArr (map McpTool.to_value typed_tools)))
              typed_tools (mkState EmptyString list_ (Some "create_ticket") all)
              eq_refl)
    as (cards & E & _ & _).
  - discriminate.
  - exists cards. split; [exact E |].
    vm_compute in E. destruct cards as [| c1 [| c2 [| c3 cards]]];
      try discriminate E.
    injection E as E1 E2. subst c1 c2. split; reflexivity.
Defined.

(** X6. With the selection [unavailable] a server that has well-formed
    tools always gets the explorer with no card and the no-tools-found
    notice, never the no-tools-available state, whatever the search text. *)
Theorem unavailable_shows_no_tools_found :
  forall (server : McpServer.t) (tools : list McpTool.t) (st : State),
    McpServer.tools server = VArr (map McpTool.to_value tools) ->
    tools <> [] ->
    render server (setFilterStatus unavailable st)
    = Normal (Explorer (viewMode st) 0 (List.length tools) [] true).
Proof.
  intros server tools st Htools Hne.
  unfold render, tools_of. rewrite Htools. simpl.
  rewrite filteredTools_tools, length_map.
  replace (filter (selects (searchTerm st) unavailable) tools) with (@nil McpTool.t).
  - destruct tools; [contradiction | reflexivity].
  - clear. induction tools as [| tool tools IH]; simpl; [reflexivity |].
    unfold selects at 1. simpl. now rewrite andb_false_r.
Qed.

Lemma unavailable_shows_no_tools_found_witness :
  render (server_with (Some "CONNECTED") (VArr (map McpTool.to_value typed_tools)))
         (setFilterStatus unavailable initialState)
  = Normal (Explorer grid 0 2 [] true).
Proof.
  apply (unavailable_shows_no_tools_found
           (server_with (Some "CONNECTED")
                        (VArr (map McpTool.to_value typed_tools)))
           typed_tools initialState eq_refl).
  discriminate.
Defined.

(** X7. Whether a well-formed tool's card has a schema section: always
    for a structured schema (an empty object too), never for a number, a
    boolean or no schema at all, and for a text exactly when it parses to
    a truthy value, so not for the texts of [null], [0] or [false]. *)
Theorem schema_section_shown :
  forall (st : State) (tool : McpTool.t),
  exists c : card,
    card_of st (McpTool.to_value tool) = Normal c
    /\ card_has_schema c
       = match McpTool.schema tool with
         | VArr _ | VObj _ | VError _ => true
         | VStr text =>
             match JSON_parse text with
             | Normal parsed => truthy parsed
             | Throw _ => false
             end
         | _ => false
         end.
Proof.
  intros st tool. destruct (card_of_tool st tool) as (parsed & Ep & Ec).
  eexists. split; [exact Ec |]. simpl.
  destruct (McpTool.schema tool) as [| | b | m e | text | items | props | msg];
    try (injection Ep as <-; reflexivity).
  unfold parseSchema in Ep. simpl in Ep.
  destruct (JSON_parse text); injection Ep as <-; reflexivity.
Qed.

(** A schema text that reads as zero, here a number too small for a
    double: no schema section, and the [0] the guard leaves behind. *)
Example zero_schema_leaves_its_text :
  exists c : card,
    card_of initialState
      (McpTool.to_value (McpTool.mk "probe" EmptyString (VStr "1e-400")))
    = Normal c
    /\ card_has_schema c = false
    /\ card_panel c = None
    /\ card_guard_text c = Some "0".
Proof. eexists. vm_compute. repeat split. Qed.

End ExplorerView.

(** ** ToolsExplorer: categories and expansion *)

Section Categories.

Import ToolsExplorer ToolsExplorerControls Examples.



(** X9. Clicking the schema toggle of the same tool twice brings the
    state back, when no other tool was expanded before. *)
Theorem toggleToolExpansion_twice :
  forall (toolName : string) (st : State),
    expandedTool st = None \/ expandedTool st = Some toolName ->
    toggleToolExpansion toolName (toggleToolExpansion toolName st) = st.
Proof.
  intros toolName [q m e f] [H | H]; simpl in H; subst e;
    unfold toggleToolExpansion; simpl; now rewrite String.eqb_refl.
Qed.

Lemma toggleToolExpansion_twice_witness :
  toggleToolExpansion "search_users"
    (toggleToolExpansion "search_users" initialState) = initialState.
Proof.
  exact (toggleToolExpansion_twice "search_users" initialState
           (or_introl eq_refl)).
Defined.

(** X10. Clicking the toggle of one tool and then the toggle of another
    leaves the other one expanded, whatever was expanded before; the
    search text, the view mode and the filter selection are untouched. *)
Theorem toggleToolExpansion_switches :
  forall (first other : string) (st : State),
    first <> other ->
    let st' := toggleToolExpansion other (toggleToolExpansion first st) in
    expandedTool st' = Some other
    /\ searchTerm st' = searchTerm st
    /\ viewMode st' = viewMode st
    /\ filterStatus st' = filterStatus st.
Proof.
  intros first other [q m e f] Hne. unfold toggleToolExpansion. simpl.
  repeat split.
  destruct e as [open |]; [destruct (String.eqb open first) |];
    try (apply String.eqb_neq in Hne; now rewrite Hne).
  reflexivity.
Qed.

Lemma toggleToolExpansion_switches_witness :
  expandedTool (toggleToolExpansion "create_ticket"
                  (toggleToolExpansion "search_users" initialState))
  = Some "create_ticket".
Proof.
  refine (proj1 (toggleToolExpansion_switches "search_users" "create_ticket"
                   initialState _)).
  discriminate.
Defined.

End Categories.

(** ** ServerManagement: the panel *)

Section Panel.

Import ServerManagement Examples.

Lemma upper_is_nonempty (s k : string) :
  upper_is (Some s) k = true -> k <> EmptyString ->
  String.eqb s EmptyString = false.
Proof.
  simpl. rewrite String.eqb_eq. intros <- Hne.
  destruct s; [now elim Hne | reflexivity].
Qed.

Lemma status_is_connected (server : McpServer.t) :
  upper_is (McpServer.connectionStatus server) "CONNECTED" = true
  <-> status_is server "CONNECTED".
Proof. apply upper_is_spec. Qed.

Lemma status_upper_is_spec (server : McpServer.t) (k : string) :
  upper_is (McpServer.connectionStatus server) k = true
  <-> status_upper_is server k.
Proof.
  unfold status_upper_is.
  destruct (McpServer.connectionStatus server) as [s |]; simpl.
  - rewrite String.eqb_eq. split.
    + intros H. now exists s.
    + intros (x & [= <-] & H). exact H.
  - split; [discriminate | intros (x & [=] & _)].
Qed.

(** X11. The status dot, the badge variant and the badge icon always
    agree: the panel shows one of four presentations, and which one goes
    by the upper case of the status (green, default and a check when it
    is CONNECTED; yellow, secondary and a cross when it is DISCONNECTED;
    red, destructive and a cross when it is FAILED; gray, outline and the
    power icon for anything else, an absent or empty status too).  A
    status that is one of the three words in any mix of capital and small
    letters has that word as its upper case. *)
Theorem status_presentation_agrees :
  forall (server : McpServer.t) (loading : State),
    let v := render server loading in
    ((status_upper_is server "CONNECTED"
      /\ dot_class v = "bg-green-500 hover:bg-green-600 animate-pulse"
      /\ badge_variant v = "default" /\ badge_icon v = CheckCircle)
     \/ (status_upper_is server "DISCONNECTED"
         /\ dot_class v = "bg-yellow-500 hover:bg-yellow-600"
         /\ badge_variant v = "secondary" /\ badge_icon v = XCircle)
     \/ (status_upper_is server "FAILED"
         /\ dot_class v = "bg-red-500 hover:bg-red-600 animate-pulse"
         /\ badge_variant v = "destructive" /\ badge_icon v = XCircle)
     \/ ((~ status_upper_is server "CONNECTED"
          /\ ~ status_upper_is server "DISCONNECTED"
          /\ ~ status_upper_is server "FAILED")
         /\ dot_class v = "bg-gray-400 hover:bg-gray-500"
         /\ badge_variant v = "outline" /\ badge_icon v = Power))
    /\ (status_is server "CONNECTED" -> status_upper_is server "CONNECTED")
    /\ (status_is server "DISCONNECTED"
        -> status_upper_is server "DISCONNECTED")
    /\ (status_is server "FAILED" -> status_upper_is server "FAILED").
Proof.
  intros server loading v. subst v.
  pose proof (status_upper_is_spec server "CONNECTED") as Hc.
  pose proof (status_upper_is_spec server "DISCONNECTED") as Hd.
  pose proof (status_upper_is_spec server "FAILED") as Hf.
  split.
  2: { split; [| split]; intros (s & E & H); exists s; (split; [exact E |]);
       apply case_variant_toUpperCase in H; rewrite H; reflexivity. }
  unfold render, statusDotClass, getStatusColor, getStatusIcon.
  cbn [dot_class badge_variant badge_icon].
  destruct (upper_is (McpServer.connectionStatus server) "CONNECTED") eqn:Ec;
    [| destruct (upper_is (McpServer.connectionStatus server) "DISCONNECTED") eqn:Ed;
       [| destruct (upper_is (McpServer.connectionStatus server) "FAILED") eqn:Ef]].
  - left. split; [now apply Hc |].
    destruct (McpServer.connectionStatus server) as [s |]; [| discriminate].
    rewrite (upper_is_nonempty s _ Ec) by discriminate.
    simpl in Ec. rewrite Ec. repeat split.
  - right; left. split; [now apply Hd |].
    destruct (McpServer.connectionStatus server) as [s |]; [| discriminate].
    rewrite (upper_is_nonempty s _ Ed) by discriminate.
    simpl in Ec, Ed. rewrite Ec, Ed. repeat split.
  - right; right; left. split; [now apply Hf |].
    destruct (McpServer.connectionStatus server) as [s |]; [| discriminate].
    rewrite (upper_is_nonempty s _ Ef) by discriminate.
    simpl in Ec, Ed, Ef. rewrite Ec, Ed, Ef. repeat split.
  - right; right; right. split.
    + repeat split; intros H; [apply Hc in H | apply Hd in H | apply Hf in H];
        discriminate.
    + destruct (McpServer.connectionStatus server) as [s |]; [| repeat split].
      simpl in Ec, Ed, Ef. rewrite Ec, Ed, Ef.
      destruct (String.eqb s EmptyString); repeat split.
Qed.

Lemma status_presentation_agrees_witness :
  status_upper_is (server_with (Some "Failed") VNull) "FAILED".
Proof.
  apply (proj2 (proj2 (proj2
           (status_presentation_agrees (server_with (Some "Failed") VNull)
                                       None)))).
  exists "Failed". split; [reflexivity |].
  exact (cv_same "F" _ _ (cv_swap "a" _ _ (cv_swap "i" _ _ (cv_swap "l" _ _
           (cv_swap "e" _ _ (cv_swap "d" _ _ cv_empty)))))).
Defined.

(** X12. With no action in flight the primary button is enabled, and it
    offers Deactivate exactly when the server is connected.  The menu
    lists the other one of the two actions, which is then disabled, and
    Restart, which is enabled: the activate/deactivate entry of the menu
    cannot be used while the panel is idle. *)
Theorem idle_panel_controls :
  forall server : McpServer.t,
    let v := render server None in
    control_disabled (primary v) = false
    /\ menu_disabled v = false
    /\ (control_action (primary v) = deactivate <-> status_is server "CONNECTED")
    /\ exists other again : control,
        menu v = [other; again]
        /\ control_disabled other = true
        /\ control_action again = restart
        /\ control_disabled again = false
        /\ ((control_action (primary v) = deactivate
             /\ control_action other = activate)
            \/ (control_action (primary v) = activate
                /\ control_action other = deactivate)).
Proof.
  intros server v. subst v.
  pose proof (status_is_connected server) as Hc.
  unfold render, primaryButton, menuActions, isActionDisabled.
  cbn [primary menu menu_disabled in_flight].
  destruct (upper_is (McpServer.connectionStatus server) "CONNECTED") eqn:Ec;
    simpl; rewrite ?Ec; simpl.
  - repeat split; try (intros _; now apply Hc).
    eexists _, _. repeat split; auto.
  - repeat split; try discriminate.
    + intros H. apply Hc in H. discriminate.
    + eexists _, _. repeat split; auto.
Qed.

(** X13. While an action is in flight the primary button, the menu
    trigger and every entry of the menu are disabled, and the primary
    button shows the spinner exactly when the action in flight is its
    own. *)
Theorem busy_panel_controls :
  forall (server : McpServer.t) (running : action),
    let v := render server (Some (action_name running)) in
    control_disabled (primary v) = true
    /\ menu_disabled v = true
    /\ Forall (fun c => control_disabled c = true) (menu v)
    /\ (control_icon (primary v) = Loader2
        <-> control_action (primary v) = running).
Proof.
  intros server running v. subst v.
  unfold render, primaryButton, menuActions.
  cbn [primary menu menu_disabled].
  destruct (upper_is (McpServer.connectionStatus server) "CONNECTED");
    destruct running; simpl; repeat split; try discriminate;
    repeat constructor.
Qed.

(** X14. The success notification of an action: the [message] of the
    collaborator's result when the result is an object that has one and it
    is a string (an [Error] returned as the result counts); otherwise the
    action's name with [d successfully] behind it, which reads
    [restartd] for a restart.  Nothing is logged. *)
Theorem handleAction_success_message :
  forall (server : McpServer.t) (a : action) (result : value)
         (w : world State),
    handleAction server (fun _ _ => Fulfilled result) a w
    = (Normal tt,
       mkWorld None
         (toasts w ++
          [ToastSuccess
             (let fallback :=
                match a with
                | restart => "Server restartd successfully"
                | activate => "Server activated successfully"
                | deactivate => "Server deactivated successfully"
                end in
              match result with
              | VObj props =>
                  match lookup "message" props with
                  | Some (VStr m) => m
                  | _ => fallback
                  end
              | VError m => m
              | _ => fallback
              end)])%list
         (console_errors w)).
Proof.
  intros server a result w. rewrite handleAction_run.
  destruct result as [| | b | m e | s | items | props | msg];
    try (destruct a; reflexivity).
  - destruct b; destruct a; reflexivity.
  - unfold result_message. simpl.
    destruct (negb (double_eqb (magnitude m e) DZero)); destruct a; reflexivity.
  - unfold result_message. simpl.
    destruct (negb (String.eqb s EmptyString)); destruct a; reflexivity.
  - unfold result_message. simpl.
    destruct (lookup "message" props) as [[| | b | m e | s | items | ps | msg] |];
      destruct a; reflexivity.
Qed.

(** X15. The failure notification of an action: the message of the
    rejection when it is an [Error]; for any other rejection (a string, a
    plain object, one with a [message] too) the generic text with the
    action's name.  The rejection is logged once, under the generic
    label. *)
Theorem handleAction_failure_message :
  forall (server : McpServer.t) (a : action) (reason : value)
         (w : world State),
    handleAction server (fun _ _ => Rejected reason) a w
    = (Normal tt,
       mkWorld None
         (toasts w ++
          [ToastError
             match reason with
             | VError m => m
             | _ => match a with
                    | restart => "Failed to restart server"
                    | activate => "Failed to activate server"
                    | deactivate => "Failed to deactivate server"
                    end
             end])%list
         (console_errors w ++
          [(match a with
            | restart => "Failed to restart server:"
            | activate => "Failed to activate server:"
            | deactivate => "Failed to deactivate server:"
            end, reason)])%list).
Proof.
  intros server a reason w. rewrite handleAction_run.
  destruct reason; destruct a; reflexivity.
Qed.

(** X16. Two actions run one after the other call the collaborator with
    the name of the server and each action, and leave their two
    notifications behind the earlier ones, in the order they ran: for a
    fulfilled call the success notification with the message of the
    result or the default text, for a rejected call the error
    notification.  What they log comes behind what was logged: one entry
    for each rejected call, in the order they ran.  The marker is cleared
    at the end. *)
Theorem handleAction_runs_compose :
  forall (server : McpServer.t) (onAction : string -> action -> settlement)
         (a b : action) (w : world State),
    let note (x : action) : toast :=
      match onAction (McpServer.name server) x with
      | Fulfilled result =>
          ToastSuccess
            match result_message result with
            | Some m => m
            | None => ("Server " ++ action_name x ++ "d successfully")%string
            end
      | Rejected error =>
          ToastError
            (error_message error
               ("Failed to " ++ action_name x ++ " server")%string)
      end in
    let logged (x : action) : list (string * value) :=
      match onAction (McpServer.name server) x with
      | Fulfilled _ => []
      | Rejected error =>
          [(("Failed to " ++ action_name x ++ " server:")%string, error)]
      end in
    (handleAction server onAction a ;; handleAction server onAction b) w
    = (Normal tt,
       mkWorld None (toasts w ++ [note a; note b])%list
               (console_errors w ++ logged a ++ logged b)%list).
Proof.
  intros server onAction a b w note logged. subst note logged. simpl.
  rewrite !handleAction_run.
  destruct (onAction (McpServer.name server) a);
    rewrite handleAction_run;
    destruct (onAction (McpServer.name server) b); simpl;
    rewrite <- ?app_assoc; simpl; rewrite ?app_nil_r; reflexivity.
Qed.

End Panel.

(** ** ServerFormModal: more on validation and submission *)

Section FormMore.

Import Zod ServerFormModal Examples.

(** X17. Validation reports at most two issues, and only under [name]
    and [transport]: it passes exactly when the name is not empty and the
    transport is one of the three kinds, so a transport the form was reset
    to from a record and that is none of them blocks the submission. *)
Theorem validation_outcome :
  forall d : ServerFormData,
    (validate d = [] <->
     name d <> EmptyString /\ In (transport d) transport_kinds)
    /\ List.length (validate d) <= 2
    /\ Forall (fun i => path i = [Key "name"] \/ path i = [Key "transport"])
              (validate d).
Proof.
  intros d. split; [apply validate_accepts_iff |].
  rewrite validate_issues.
  destruct (Nat.ltb _ _), (string_in _ _); simpl; split; auto;
    repeat constructor; auto.
Qed.

(** X18. Validation looks at the name and the transport only: two
    submissions that agree on them get the same issues, whatever their
    url, command, args, description, flags and header rows hold (an args
    text that is no JSON, header rows with empty or repeated keys). *)
Theorem validation_ignores_other_fields :
  forall d d' : ServerFormData,
    name d = name d' ->
    transport d = transport d' ->
    validate d = validate d'.
Proof. intros d d' Hn Ht. rewrite !validate_issues. now rewrite Hn, Ht. Qed.

Lemma validation_ignores_other_fields_witness :
  validate stdio_with_odd_fields = validate stdio_without_command.
Proof.
  exact (validation_ignores_other_fields stdio_with_odd_fields
           stdio_without_command eq_refl eq_refl).
Defined.

(** X19. The form opened in [edit] mode on a record passes validation
    exactly when the record's name is not empty and its transport is one
    of the three kinds: nothing else in the record can block saving it
    unchanged. *)
Theorem edit_form_validity :
  forall (server : McpServer.t) (st : State),
    validate (values (open edit (Some server) st)) = []
    <-> McpServer.name server <> EmptyString
        /\ In (McpServer.transport server) transport_kinds.
Proof. intros server st. now rewrite validate_accepts_iff. Qed.

(** X20. Opening the dialog starts afresh: the state after opening does
    not depend on the state before (values, errors, disclosure and
    sub-form of an earlier session), so opening twice is opening once; the
    sub-form follows the transport of the values. *)
Theorem open_forgets_earlier_state :
  forall (mode : Mode) (server : option McpServer.t) (st st' : State),
    open mode server st = open mode server st'
    /\ open mode server (open mode server st) = open mode server st
    /\ transportType (open mode server st)
       = transport (values (open mode server st))
    /\ errors (open mode server st) = [].
Proof.
  intros mode [server |] st st'; destruct mode; repeat split.
Qed.

(** X22. A submission that passes validation is handed to the
    collaborator and ends with exactly one more notification, no field
    error and the values as entered; the dialog is closed when the
    collaborator resolves and is as it was when it rejects. *)
Theorem valid_submission_is_handled :
  forall (mode : Mode) (onSubmit : ServerFormData -> settlement)
         (w : world State),
    validate (values (ui w)) = [] ->
    exists (w' : world State) (note : toast),
      submit mode onSubmit w = (Normal tt, w')
      /\ toasts w' = (toasts w ++ [note])%list
      /\ values (ui w') = values (ui w)
      /\ errors (ui w') = []
      /\ isOpen (ui w')
         = match onSubmit (values (ui w)) with
           | Fulfilled _ => false
           | Rejected _ => isOpen (ui w)
           end.
Proof.
  intros mode onSubmit w H. unfold submit. rewrite H.
  unfold handleFormSubmit. simpl.
  destruct (onSubmit (values (ui w))); eexists _, _; repeat split.
Qed.

Lemma valid_submission_is_handled_witness :
  exists (w' : world State) (note : toast),
    submit edit (fun _ => Rejected (VStr "offline"))
           (mkWorld (mkState stdio_with_odd_fields [] true "stdio" true) [] [])
    = (Normal tt, w')
    /\ toasts w' = [note]
    /\ values (ui w') = stdio_with_odd_fields.
Proof.
  destruct (valid_submission_is_handled edit
              (fun _ => Rejected (VStr "offline"))
              (mkWorld (mkState stdio_with_odd_fields [] true "stdio" true) [] [])
              eq_refl)
    as (w' & note & E & Ht & Hv & _).
  exists w', note. repeat split; assumption.
Defined.

End FormMore.

(** ** ServerFormModal: the args text of an edit form *)

Section ArgsText.

Import ServerFormModal Examples.

(** Reading back an escaped character gives the character. *)
Lemma lex_escape_char (c : ascii) (acc : list ascii) (toks : list token)
  (rest : string) :
  lex (LStr acc) toks (escape_char c ++ rest) = lex (LStr (c :: acc)) toks rest.
Proof. each_ascii c; reflexivity. Qed.

Lemma lex_escape (s : string) (acc : list ascii) (toks : list token)
  (rest : string) :
  lex (LStr acc) toks (escape s ++ String dquote rest)
  = lex LIdle
        (TString (string_of_rev (rev (list_ascii_of_string s) ++ acc)%list) :: toks)
        rest.
Proof.
  revert acc. induction s as [| c s IH]; intros acc.
  - reflexivity.
  - cbn [escape]. rewrite string_app_assoc, lex_escape_char, IH.
    cbn [list_ascii_of_string rev]. now rewrite <- app_assoc.
Qed.

(** The scanner reads a quoted text back as one string token. *)
Lemma lex_quote_json (s : string) (toks : list token) (rest : string) :
  lex LIdle toks (quote_json s ++ rest) = lex LIdle (TString s :: toks) rest.
Proof.
  unfold quote_json, quoted. cbn [append].
  rewrite string_app_assoc. cbn [append].
  change (lex LIdle toks (String dquote (escape s ++ String dquote rest)))
    with (lex (LStr []) toks (escape s ++ String dquote rest)).
  rewrite lex_escape, app_nil_r. unfold string_of_rev.
  now rewrite rev_involutive, string_of_list_ascii_of_string.
Qed.

Lemma lex_joined (x : string) (more : list string) (toks : list token)
  (rest : string) :
  lex LIdle toks (join "," (map quote_json (x :: more)) ++ rest)
  = lex LIdle
        (rev (flat_map (fun y => [TComma; TString y]) more)
         ++ TString x :: toks)%list
        rest.
Proof.
  revert x toks. induction more as [| y more IH]; intros x toks.
  - cbn [map join flat_map rev app]. apply lex_quote_json.
  - change (join "," (map quote_json (x :: y :: more)))
      with (quote_json x ++ "," ++ join "," (map quote_json (y :: more))).
    rewrite string_app_assoc, lex_quote_json.
    rewrite string_app_assoc.
    change (lex LIdle (TString x :: toks)
              ("," ++ join "," (map quote_json (y :: more)) ++ rest))
      with (lex LIdle (TComma :: TString x :: toks)
              (join "," (map quote_json (y :: more)) ++ rest)).
    rewrite IH. cbn [flat_map app rev]. now rewrite <- !app_assoc.
Qed.

Lemma parse_items (more : list string) (seen : list value) :
  parse ECommaOrClose [FArr seen]
        (flat_map (fun y => [TComma; TString y]) more ++ [TRBracket])%list
  = Some (VArr (rev seen ++ map VStr more)%list).
Proof.
  revert seen. induction more as [| y more IH]; intros seen.
  - cbn. now rewrite app_nil_r.
  - cbn [flat_map app map]. cbn [parse parse_step begin_value complete].
    rewrite IH. cbn [rev]. now rewrite <- app_assoc.
Qed.

Lemma lex_closing_bracket (toks : list token) :
  lex LIdle toks "]" = Some (rev (TRBracket :: toks)).
Proof. reflexivity. Qed.

Lemma parse_string_array (items : list string) :
  JSON_parse (JSON_stringify (VArr (map VStr items)))
  = Normal (VArr (map VStr items)).
Proof.
  unfold JSON_parse. cbn [JSON_stringify]. rewrite map_map.
  change (fun x : string => JSON_stringify (VStr x)) with quote_json.
  destruct items as [| x more].
  - reflexivity.
  - change (lex LIdle [] ("[" ++ join "," (map quote_json (x :: more)) ++ "]"))
      with (lex LIdle [TLBracket] (join "," (map quote_json (x :: more)) ++ "]")).
    rewrite lex_joined, lex_closing_bracket.
    cbn [rev]. rewrite !rev_app_distr, rev_involutive. cbn [rev app].
    change (parse EValue [] (TLBracket :: TString x :: ?l))
      with (parse ECommaOrClose [FArr [VStr x]] l).
    now rewrite parse_items.
Qed.

(** X23. When the args of a record are an array of strings, whatever
    characters the strings hold, the args text of the edit form is JSON
    that parses back to that array; the text is never empty, not for an
    empty array either. *)
Theorem edit_args_text_parses_back :
  forall (server : McpServer.t) (items : list string) (st : State),
    McpServer.args server = VArr (map VStr items) ->
    exists text : string,
      args (values (open edit (Some server) st)) = Some text
      /\ JSON_parse text = Normal (VArr (map VStr items))
      /\ String.eqb text EmptyString = false.
Proof.
  intros server items st Hargs.
  exists (JSON_stringify (VArr (map VStr items))). repeat split.
  - cbn. now rewrite Hargs.
  - apply parse_string_array.
Qed.

Lemma edit_args_text_parses_back_witness :
  exists text : string,
    args (values (open edit (Some (server_with None VNull)) initialState))
    = Some text
    /\ JSON_parse text = Normal (VArr [VStr "-m"; VStr "my_module"]).
Proof.
  destruct (edit_args_text_parses_back (server_with None VNull)
              ["-m"; "my_module"] initialState eq_refl)
    as (text & E & P & _).
  exists text. split; assumption.
Defined.

End ArgsText.

(** ** ToolsExplorer: the letter case of the search text *)

Section SearchCase.

Import ToolsExplorer ToolsExplorerControls Examples.

Lemma filterM_ext {A : Type} (f g : A -> completion bool) (xs : list A) :
  (forall x, f x = g x) -> filterM f xs = filterM g xs.
Proof.
  intros H. induction xs as [| x xs IH]; simpl; [reflexivity |].
  now rewrite H, IH.
Qed.

(** X24. The letter case of the search text does not matter: two search
    texts that are letter-case variants of each other give the same
    filtered result on every list, an exception included. *)
Theorem search_text_case_is_ignored :
  forall (tools : list value) (q q' : string) (f : FilterStatus),
    case_variant q q' ->
    filteredTools tools q f = filteredTools tools q' f.
Proof.
  intros tools q q' f H. apply case_variant_toLowerCase in H.
  apply filterM_ext. intros tool. unfold keeps, matchesSearch. now rewrite H.
Qed.

Lemma search_text_case_is_ignored_witness :
  filteredTools two_tools "USER" all = filteredTools two_tools "user" all.
Proof.
  apply (search_text_case_is_ignored two_tools "USER" "user" all).
  exact (cv_swap "U" _ _ (cv_swap "S" _ _ (cv_swap "E" _ _
           (cv_swap "R" _ _ cv_empty)))).
Defined.

End SearchCase.
